(** * release-changelog

    A shallow embedding of [release-changelog.go] (package [main]) and the
    properties of its release pipeline: trigger listener, tag and pull-request
    resolution, changelog assembly and the publish step.

    Go strings are byte strings and are modelled by [string]; Go's [int] is
    modelled by [Z] (the program only compares it with 0).  Everything the
    program obtains from outside (environment, Kafka, HTTP, GraphQL, the JSON
    codec, [%q] quoting) is read from a [World]; everything it does to the
    outside is recorded as a list of [Event]s. *)

From Stdlib Require Import String Ascii List ZArith Bool Arith Lia Sorted.
Import ListNotations.

Local Open Scope string_scope.
Local Open Scope list_scope.

(** ** Go library functions used by the program *)

Module strings.

(** [strings.Contains(s, substr)]: does [substr] occur within [s]? *)
Fixpoint Contains (s substr : string) : bool :=
  if String.prefix substr s then true
  else match s with
       | EmptyString => false
       | String _ s' => Contains s' substr
       end.

End strings.

(** [len(s)] on a Go string. *)
Definition len (s : string) : nat := String.length s.

(** The newline byte written [\n] in the source. *)
Definition nl : string := String "010"%char EmptyString.

(** The double-quote byte. *)
Definition dquote : string := String "034"%char EmptyString.

(** Go's [error] values are represented by their message. *)
Definition error : Type := string.

(** ** Data model (lines 57-136) *)

Module User.
Record t := { Login : string }.
End User.

Module Author.
Record t := { User : User.t }.
End Author.

Module PullRequestAuthor.
Record t := { Login : string }.
End PullRequestAuthor.

Module AssociatedPullRequest.
Record t := { Number : Z }.
End AssociatedPullRequest.

Module AssociatedPullRequests.
Record t := { Nodes : list AssociatedPullRequest.t }.
End AssociatedPullRequests.

Module Commit.
Record t := {
  MessageHeadline : string;
  AbbreviatedOid : string;
  Author : Author.t;
  AssociatedPullRequests : AssociatedPullRequests.t
}.
End Commit.

Module CommitNodes.
Record t := { Commit : Commit.t }.
End CommitNodes.

Module Commits.
Record t := { Nodes : list CommitNodes.t }.
End Commits.

Module PullRequest.
Record t := {
  Title : string;
  CreatedAt : string;
  BaseRefName : string;
  HeadRefOid : string;
  Author : PullRequestAuthor.t;
  Commits : Commits.t
}.
End PullRequest.

Module Object.
Record t := { Text : string }.
End Object.

Module Repository.
Record t := {
  Name : string;
  PullRequest : PullRequest.t;
  Object : Object.t
}.

(** [Repository{}], the zero value. *)
Definition zero : t :=
  {| Name := EmptyString;
     PullRequest :=
       {| PullRequest.Title := EmptyString;
          PullRequest.CreatedAt := EmptyString;
          PullRequest.BaseRefName := EmptyString;
          PullRequest.HeadRefOid := EmptyString;
          PullRequest.Author := {| PullRequestAuthor.Login := EmptyString |};
          PullRequest.Commits := {| Commits.Nodes := [] |} |};
     Object := {| Object.Text := EmptyString |} |}.
End Repository.

Module QueryResponse.
Record t := { Repository : Repository.t }.
End QueryResponse.

Module Release.
Record t := {
  TagName : string;
  TargetCommitish : string;
  Name : string;
  Body : string
}.
End Release.

Module PR.
Record t := { Number : Z }.
End PR.

Module PackageJson.
Record t := { Name : string }.
End PackageJson.

Module DistTags.
Record t := { Latest : string }.
End DistTags.

Module RegistryResponse.
Record t := { DistTags : DistTags.t }.
End RegistryResponse.

(** ** The GraphQL queries (lines 20-55), byte for byte *)

Definition PullRequestQuery : string := "
query($owner: String!, $repo: String!, $pr: Int!) {
  repository(owner: $owner, name: $repo) {
    name
    pullRequest(number: $pr) {
      title baseRefName author { login } baseRefOid headRefOid createdAt
      commits(first: 50) {
        nodes {
          commit {
            messageHeadline
            abbreviatedOid
            author { user { login } }
            associatedPullRequests(first: 1) {
              nodes {
                number
              }
            }
          }
        }
      }
    }
  }
}
".

Definition NpmPackageJsonQuery : string := "
query($owner: String!, $repo: String!) {
  repository(owner: $owner, name: $repo) {
    object(expression: " ++ dquote ++ "master:package.json" ++ dquote ++ ") {
      ... on Blob {
        text
      }
    }
  }
}
".

(** ** Requests, responses and the outside world *)

Module Request.
(** An [http.Request] as the program builds it. *)
Record t := {
  Method : string;
  URL : string;
  Header : list (string * string);
  Body : option string
}.
End Request.

Module Response.
(** An [http.Response]: the status, and what [ioutil.ReadAll(resp.Body)]
    yields (the bytes, or a read error). *)
Record t := {
  StatusCode : Z;
  Body : error + string
}.
End Response.

(** A value passed to [graphql.Request.Var]. *)
Inductive Var : Type :=
| VString (s : string)
| VInt (n : Z).

Module GraphQLRequest.
Record t := {
  Query : string;
  Vars : list (string * Var);
  Header : list (string * string)
}.
End GraphQLRequest.

(** The result of one [c.ReadMessage(-1)]: a message value or an error. *)
Inductive ReadResult : Type :=
| ReadOk (value : string)
| ReadErr (e : error).

(** Everything the program reads from its environment.  A Go call returning
    [(v, err)] with exactly one of them meaningful is a sum [error + V]; a call
    returning only [err] is an [option error]. *)
Record World := {
  env_TOKEN : string;
  env_KAFKA_BOOTSTRAP_SERVERS : string;
  (** [kafka.NewConsumer] for the given bootstrap servers. *)
  kafka_NewConsumer : string -> option error;
  (** [http.NewRequest(method, url, body)]: the construction error, if any. *)
  http_NewRequest : string -> string -> option error;
  (** [client.Do(req)]. *)
  http_Do : Request.t -> error + Response.t;
  (** [client.Run(ctx, request, &respData)] of the GraphQL client. *)
  graphql_Run : GraphQLRequest.t -> error + QueryResponse.t;
  (** [json.Unmarshal] into the three target types the program uses. *)
  json_Unmarshal_RegistryResponse : string -> error + RegistryResponse.t;
  json_Unmarshal_PackageJson : string -> error + PackageJson.t;
  json_Unmarshal_PRs : string -> error + list PR.t;
  (** [json.Marshal(release)]. *)
  json_Marshal_Release : Release.t -> error + string;
  (** The [%q] verb of [fmt.Printf] (Go-syntax quoting). *)
  fmt_q : string -> string
}.

(** What the program does to its environment, in order. *)
Inductive Event : Type :=
| Stdout (s : string)                 (* bytes written to standard output *)
| Stderr (s : string)                 (* the message of a [log.Fatal] *)
| Usage                               (* [flag.Usage()] *)
| KafkaSubscribe (topic : string)
| KafkaRead (r : ReadResult)          (* one [c.ReadMessage(-1)] and its result *)
| KafkaUnsubscribe
| KafkaClose
| RegistryGet (req : Request.t)       (* [client.Do] in [getLatestVersion] *)
| CommitPullsGet (req : Request.t)    (* [client.Do] in [getPullRequestNumber] *)
| GraphQLRun (req : GraphQLRequest.t) (* [client.Run] *)
| ReleasePost (release : Release.t) (req : Request.t).
                                      (* [client.Do] in [publishRelease] *)

(** ** The package-level variables (lines 138-146) *)

Record Globals := {
  owner : string;
  repo : string;
  registry : string;
  tag : string;
  targetCommitish : string;
  pr : Z;
  commit : string;
  dryRun : bool;
  kafkaTopic : string
}.

Definition set_tag (v : string) (g : Globals) : Globals :=
  {| owner := owner g; repo := repo g; registry := registry g; tag := v;
     targetCommitish := targetCommitish g; pr := pr g; commit := commit g;
     dryRun := dryRun g; kafkaTopic := kafkaTopic g |}.

Definition set_targetCommitish (v : string) (g : Globals) : Globals :=
  {| owner := owner g; repo := repo g; registry := registry g; tag := tag g;
     targetCommitish := v; pr := pr g; commit := commit g;
     dryRun := dryRun g; kafkaTopic := kafkaTopic g |}.

Definition set_pr (v : Z) (g : Globals) : Globals :=
  {| owner := owner g; repo := repo g; registry := registry g; tag := tag g;
     targetCommitish := targetCommitish g; pr := v; commit := commit g;
     dryRun := dryRun g; kafkaTopic := kafkaTopic g |}.

Definition set_dryRun (v : bool) (g : Globals) : Globals :=
  {| owner := owner g; repo := repo g; registry := registry g; tag := tag g;
     targetCommitish := targetCommitish g; pr := pr g; commit := commit g;
     dryRun := v; kafkaTopic := kafkaTopic g |}.

(** ** The monad of the program

    The mutable state is the package-level variables together with the
    messages the Kafka consumer has yet to deliver.  A computation returns a
    value, or ends the process ([os.Exit], [log.Fatal]), or blocks forever in
    [ReadMessage(-1)] because no further message arrives. *)

Record State := {
  globals : Globals;
  pending : list ReadResult
}.

Inductive Outcome (A : Type) : Type :=
| Returned (a : A)
| Exited (status : Z)
| Blocked.

Arguments Returned {A} a.
Arguments Exited {A} status.
Arguments Blocked {A}.

Definition M (A : Type) : Type := State -> Outcome A * State * list Event.

Definition ret {A} (a : A) : M A := fun s => (Returned a, s, []).

Definition bind {A B} (m : M A) (k : A -> M B) : M B := fun s =>
  match m s with
  | (Returned a, s1, t1) =>
      match k a s1 with
      | (o, s2, t2) => (o, s2, t1 ++ t2)
      end
  | (Exited c, s1, t1) => (Exited c, s1, t1)
  | (Blocked, s1, t1) => (Blocked, s1, t1)
  end.

Declare Scope go_scope.
Delimit Scope go_scope with go.
Notation "x <- m ;; k" := (bind m (fun x => k))
  (at level 61, m at next level, right associativity) : go_scope.
Notation "m ;; k" := (bind m (fun _ => k))
  (at level 61, right associativity) : go_scope.
Notation "' pat <- m ;; k" := (bind m (fun x => match x with pat => k end))
  (at level 61, pat pattern, m at next level, right associativity) : go_scope.

Local Open Scope go_scope.

Definition emit (e : Event) : M unit := fun s => (Returned tt, s, [e]).

Definition gets {A} (f : Globals -> A) : M A := fun s => (Returned (f (globals s)), s, []).

Definition modify (f : Globals -> Globals) : M unit := fun s =>
  (Returned tt, {| globals := f (globals s); pending := pending s |}, []).

(** [os.Exit(code)]. *)
Definition os_Exit {A} (code : Z) : M A := fun s => (Exited code, s, []).

(** [log.Fatal(msg)]: write the message to standard error, then [os.Exit(1)]. *)
Definition log_Fatal {A} (msg : string) : M A := emit (Stderr msg) ;; os_Exit 1%Z.

(** [fmt.Print(s)] and [fmt.Println(s)] with one string operand. *)
Definition fmt_Print (s : string) : M unit := emit (Stdout s).
Definition fmt_Println (s : string) : M unit := emit (Stdout (s ++ nl)).

(** [if c { body }] for a body that yields nothing. *)
Definition when (c : bool) (body : M unit) : M unit := if c then body else ret tt.

(** [if err != nil { log.Fatal(err) }]. *)
Definition fatalIf (err : option error) : M unit :=
  match err with
  | Some e => log_Fatal e
  | None => ret tt
  end.

(** The package-level variables as they stand now. *)
Definition read : M Globals := gets (fun g => g).

(** ** The changelog body (lines 216-219)

    [var output string; for _, node := range Nodes { output += ... }] *)

Definition changelogLine (node : CommitNodes.t) : string :=
  "* " ++ Commit.MessageHeadline (CommitNodes.Commit node) ++ " @"
       ++ User.Login (Author.User (Commit.Author (CommitNodes.Commit node))) ++ nl.

Definition buildChangelog (nodes : list CommitNodes.t) : string :=
  fold_left (fun output node => (output ++ changelogLine node)%string) nodes EmptyString.

(** [if len(PRs) > 0 { pr = PRs[0].Number }] starting from [pr := 0]
    (lines 336, 367-369). *)
Definition firstPRNumber (PRs : list PR.t) : Z :=
  if (0 <? List.length PRs)%nat then
    match nth_error PRs 0 with
    | Some p => PR.Number p
    | None => 0%Z
    end
  else 0%Z.

Section Program.

Variable w : World.

(** *** subscribeToKafkaForRepoMessage (lines 245-273) *)

(** The [for { ... }] loop of lines 259-268, by recursion on the messages
    still to be delivered: each iteration reads one; a read error and a
    message without [repo] in it lead to the next iteration, a message with
    [repo] in it is printed and ends the loop. *)
Fixpoint readLoop (repo : string) (msgs : list ReadResult) (s : State)
  : Outcome unit * State * list Event :=
  match msgs with
  | [] => (Blocked, {| globals := globals s; pending := [] |}, [])
  | r :: rest =>
      let s1 := {| globals := globals s; pending := rest |} in
      match r with
      | ReadOk value =>
          if strings.Contains value repo then
            (Returned tt, s1,
             [KafkaRead r;
              Stdout (nl ++ fmt_q w value ++ nl);
              Stdout (repo ++ " has been published" ++ nl)])
          else
            match readLoop repo rest s1 with
            | (o, s2, t) => (o, s2, KafkaRead r :: t)
            end
      | ReadErr _ =>
          match readLoop repo rest s1 with
          | (o, s2, t) => (o, s2, KafkaRead r :: t)
          end
      end
  end.

Definition subscribeToKafkaForRepoMessage
  (bootstrapServers kafkaTopic repo : string) : M (option error) :=
  match kafka_NewConsumer w bootstrapServers with
  | Some err => ret (Some err)
  | None =>
      emit (KafkaSubscribe kafkaTopic) ;;
      fmt_Println ("Subscribed to " ++ kafkaTopic ++ "and waiting for message") ;;
      (fun s => readLoop repo (pending s) s) ;;
      emit KafkaUnsubscribe ;;
      emit KafkaClose ;;
      ret None
  end.

(** *** getLatestVersion (lines 275-305) *)
Definition registryURL (registry name : string) : string :=
  registry ++ "/" ++ name.

Definition registryRequest (registry name : string) : Request.t :=
  {| Request.Method := "GET"; Request.URL := registryURL registry name;
     Request.Header := []; Request.Body := None |}.

Definition getLatestVersion (registry name : string) : M (string * option error) :=
  let url := registryURL registry name in
  fatalIf (http_NewRequest w "GET" url) ;;
  let req := registryRequest registry name in
  emit (RegistryGet req) ;;
  match http_Do w req with
  | inl err => ret (EmptyString, Some err)
  | inr resp =>
      match Response.Body resp with
      | inl err => ret (EmptyString, Some err)
      | inr body =>
          match json_Unmarshal_RegistryResponse w body with
          | inl err => ret (EmptyString, Some err)
          | inr registryResponse =>
              ret (DistTags.Latest (RegistryResponse.DistTags registryResponse), None)
          end
      end
  end.

(** *** getNpmPackageName (lines 307-333) *)
Definition packageJsonRequest (githubToken owner repo : string) : GraphQLRequest.t :=
  {| GraphQLRequest.Query := NpmPackageJsonQuery;
     GraphQLRequest.Vars := [("owner", VString owner); ("repo", VString repo)];
     GraphQLRequest.Header := [("Authorization", ("bearer " ++ githubToken)%string)] |}.

Definition getNpmPackageName (githubToken owner repo : string)
  : M (string * option error) :=
  let request := packageJsonRequest githubToken owner repo in
  emit (GraphQLRun request) ;;
  match graphql_Run w request with
  | inl err => ret (EmptyString, Some err)
  | inr respData =>
      match json_Unmarshal_PackageJson w
              (Object.Text (Repository.Object (QueryResponse.Repository respData))) with
      | inl err => ret (EmptyString, Some err)
      | inr packageJson => ret (PackageJson.Name packageJson, None)
      end
  end.

(** *** getPullRequestNumber (lines 335-372)

    The URL is built from the package-level [commit], not from the
    parameter (spelled [commmit] in the source). *)
Definition commitPullsURL (owner repo commit : string) : string :=
  "https://api.github.com/repos/" ++ owner ++ "/" ++ repo
    ++ "/commits/" ++ commit ++ "/pulls".

Definition commitPullsRequest (githubToken owner repo commit : string) : Request.t :=
  {| Request.Method := "GET"; Request.URL := commitPullsURL owner repo commit;
     Request.Header := [("Accept", "application/vnd.github.v3+json");
                        ("Authorization", ("bearer " ++ githubToken)%string)];
     Request.Body := None |}.

Definition getPullRequestNumber (githubToken owner repo commmit : string)
  : M (Z * option error) :=
  let pr := 0%Z in
  g <- read ;;
  let url := commitPullsURL owner repo (commit g) in
  fatalIf (http_NewRequest w "GET" url) ;;
  let req := commitPullsRequest githubToken owner repo (commit g) in
  emit (CommitPullsGet req) ;;
  match http_Do w req with
  | inl err => ret (pr, Some err)
  | inr resp =>
      match Response.Body resp with
      | inl err => ret (pr, Some err)
      | inr body =>
          match json_Unmarshal_PRs w body with
          | inl err => ret (pr, Some err)
          | inr PRs => ret (firstPRNumber PRs, None)
          end
      end
  end.

(** *** getRepositoryPullRequest (lines 374-397) *)
Definition pullRequestRequest (githubToken owner repo : string) (pr : Z)
  : GraphQLRequest.t :=
  {| GraphQLRequest.Query := PullRequestQuery;
     GraphQLRequest.Vars :=
       [("owner", VString owner); ("repo", VString repo); ("pr", VInt pr)];
     GraphQLRequest.Header := [("Authorization", ("bearer " ++ githubToken)%string)] |}.

Definition getRepositoryPullRequest (githubToken owner repo : string) (pr : Z)
  : M (Repository.t * option error) :=
  let request := pullRequestRequest githubToken owner repo pr in
  emit (GraphQLRun request) ;;
  match graphql_Run w request with
  | inl err => ret (Repository.zero, Some err)
  | inr respData => ret (QueryResponse.Repository respData, None)
  end.

(** *** publishRelease (lines 399-424) *)
Definition releasesURL (owner repo : string) : string :=
  "https://api.github.com/repos/" ++ owner ++ "/" ++ repo ++ "/releases".

Definition releaseRequest (githubToken owner repo requestBody : string) : Request.t :=
  {| Request.Method := "POST"; Request.URL := releasesURL owner repo;
     Request.Header := [("Accept", "application/vnd.github.v3+json");
                        ("Authorization", ("bearer " ++ githubToken)%string)];
     Request.Body := Some requestBody |}.

Definition publishRelease (githubToken owner repo : string) (release : Release.t)
  : M (option error) :=
  let url := releasesURL owner repo in
  match json_Marshal_Release w release with
  | inl err => ret (Some err)
  | inr requestBody =>
      fatalIf (http_NewRequest w "POST" url) ;;
      let req := releaseRequest githubToken owner repo requestBody in
      emit (ReleasePost release req) ;;
      match http_Do w req with
      | inl err => ret (Some err)
      | inr resp => ret None
      end
  end.

(** *** main (lines 160-243), block by block *)

(** Lines 163-176: the three required flags. *)
Definition checkFlags : M unit :=
  g <- read ;;
  when (len (repo g) =? 0)%nat
    (emit Usage ;; log_Fatal "repo is a required parameter") ;;
  when (len (owner g) =? 0)%nat
    (emit Usage ;; log_Fatal "owner is a required parameter") ;;
  when (len (registry g) =? 0)%nat
    (emit Usage ;; log_Fatal "registry is a required parameter").

(** Lines 178-186: wait for the trigger when a broker and a topic are set. *)
Definition triggerStage : M unit :=
  let bootstrapServers := env_KAFKA_BOOTSTRAP_SERVERS w in
  g <- read ;;
  when ((0 <? len bootstrapServers)%nat && (0 <? len (kafkaTopic g))%nat)
    (err <- subscribeToKafkaForRepoMessage bootstrapServers (kafkaTopic g) (repo g) ;;
     fatalIf err).

(** Lines 188-200: the tag, when none was given. *)
Definition resolveTag : M unit :=
  let githubToken := env_TOKEN w in
  g <- read ;;
  when ((len (tag g) =? 0)%nat && negb (len (repo g) =? 0)%nat)
    ('(name, err) <- getNpmPackageName githubToken (owner g) (repo g) ;;
     fatalIf err ;;
     '(version, err) <- getLatestVersion (registry g) name ;;
     fatalIf err ;;
     modify (set_tag ("v" ++ version))).

(** Lines 202-208: the pull request, when none was given.  The assignment
    [pr, err = ...] stores the number before the error is looked at. *)
Definition resolvePR : M unit :=
  let githubToken := env_TOKEN w in
  g <- read ;;
  when ((pr g =? 0)%Z && negb (len (repo g) =? 0)%nat)
    ('(n, err) <- getPullRequestNumber githubToken (owner g) (repo g) (commit g) ;;
     modify (set_pr n) ;;
     fatalIf err).

(** Lines 216-229: the changelog body and the release record. *)
Definition constructRelease (repository : Repository.t) : M (Release.t * string) :=
  let output :=
    buildChangelog (Commits.Nodes (PullRequest.Commits (Repository.PullRequest repository))) in
  g <- read ;;
  when (String.eqb (tag g) EmptyString)
    (log_Fatal "Need to provide tag to publish release") ;;
  g <- read ;;
  when (String.eqb (targetCommitish g) EmptyString)
    (modify (set_targetCommitish
               (PullRequest.BaseRefName (Repository.PullRequest repository)))) ;;
  g <- read ;;
  ret ({| Release.TagName := tag g; Release.TargetCommitish := targetCommitish g;
          Release.Name := tag g; Release.Body := output |}, output).

(** Lines 210-242: fetch, assemble, publish unless dry-run, report. *)
Definition releaseStage : M unit :=
  let githubToken := env_TOKEN w in
  g <- read ;;
  when (0 <? pr g)%Z
    ('(repository, err) <- getRepositoryPullRequest githubToken (owner g) (repo g) (pr g) ;;
     fatalIf err ;;
     '(release, output) <- constructRelease repository ;;
     g <- read ;;
     when (negb (dryRun g))
       (err <- publishRelease githubToken (owner g) (repo g) release ;;
        fatalIf err) ;;
     g <- read ;;
     fmt_Println (owner g ++ "/" ++ repo g ++ " - " ++ targetCommitish g ++ ":" ++ tag g) ;;
     fmt_Print output ;;
     os_Exit 0%Z).

Definition main : M unit :=
  checkFlags ;;
  triggerStage ;;
  resolveTag ;;
  resolvePR ;;
  releaseStage.

End Program.

(** ** Observations on a run *)

(** A run of the whole program from the given flags and deliveries. *)
Definition run (w : World) (g : Globals) (msgs : list ReadResult)
  : Outcome unit * State * list Event :=
  main w {| globals := g; pending := msgs |}.

(** The exit status of the process: [main] returning is status 0; a process
    blocked forever has none. *)
Definition exitStatus (o : Outcome unit) : option Z :=
  match o with
  | Returned _ => Some 0%Z
  | Exited c => Some c
  | Blocked => None
  end.

(** Everything written to standard output, in order. *)
Fixpoint stdout (t : list Event) : string :=
  match t with
  | [] => EmptyString
  | Stdout s :: t' => (s ++ stdout t')%string
  | _ :: t' => stdout t'
  end.

(** The release records sent to the releases endpoint. *)
Fixpoint published (t : list Event) : list Release.t :=
  match t with
  | [] => []
  | ReleasePost release _ :: t' => release :: published t'
  | _ :: t' => published t'
  end.

(** The pull-request detail queries sent. *)
Fixpoint detailQueries (t : list Event) : list GraphQLRequest.t :=
  match t with
  | [] => []
  | GraphQLRun req :: t' =>
      if String.eqb (GraphQLRequest.Query req) PullRequestQuery
      then req :: detailQueries t' else detailQueries t'
  | _ :: t' => detailQueries t'
  end.

(** The number of [ReadMessage] calls made. *)
Fixpoint reads (t : list Event) : nat :=
  match t with
  | [] => 0
  | KafkaRead _ :: t' => S (reads t')
  | _ :: t' => reads t'
  end.

(** ** Vocabulary of the statements *)

(** [sub] occurs in [s]. *)
Definition isSubstring (sub s : string) : Prop :=
  exists a b, s = (a ++ sub ++ b)%string.

(** A delivery that ends the wait for [repo]: a message, read without error,
    whose value contains [repo]. *)
Definition isSignal (repo : string) (r : ReadResult) : Prop :=
  match r with
  | ReadOk value => isSubstring repo value
  | ReadErr _ => False
  end.

(** A delivery that does not end the wait: a read error, or a message
    without [repo] in it. *)
Definition notSignal (repo : string) (r : ReadResult) : Prop := ~ isSignal repo r.

(** The pieces of a list of strings, one after the other, nothing between. *)
Definition flatten (pieces : list string) : string :=
  fold_right String.append EmptyString pieces.

(** The number of newline bytes in a string. *)
Fixpoint newlines (s : string) : nat :=
  match s with
  | EmptyString => 0
  | String c s' => (if Ascii.eqb c "010"%char then 1 else 0) + newlines s'
  end.

(** A commit whose headline and author login hold no newline. *)
Definition singleLine (node : CommitNodes.t) : Prop :=
  newlines (Commit.MessageHeadline (CommitNodes.Commit node)) = 0
  /\ newlines (User.Login (Author.User (Commit.Author (CommitNodes.Commit node)))) = 0.

(** The commits of a fetched repository's pull request. *)
Definition commitsOf (repository : Repository.t) : list CommitNodes.t :=
  Commits.Nodes (PullRequest.Commits (Repository.PullRequest repository)).

(** *** The publish step *)

(** The three ways the write request of [publishRelease] can fail at the
    transport level: marshalling, request construction, the connection. *)
Definition marshalFails (w : World) (release : Release.t) : Prop :=
  exists e, json_Marshal_Release w release = inl e.

Definition constructionFails (w : World) (owner repo : string) : Prop :=
  exists e, http_NewRequest w "POST" (releasesURL owner repo) = Some e.

Definition connectionFails (w : World) (githubToken owner repo : string)
  (release : Release.t) : Prop :=
  exists body e,
    json_Marshal_Release w release = inr body
    /\ http_NewRequest w "POST" (releasesURL owner repo) = None
    /\ http_Do w (releaseRequest githubToken owner repo body) = inl e.

Definition transportFailure (w : World) (githubToken owner repo : string)
  (release : Release.t) : Prop :=
  marshalFails w release
  \/ constructionFails w owner repo
  \/ connectionFails w githubToken owner repo release.

(** A call that returned a non-nil [error]. *)
Definition returnsError (r : Outcome (option error) * State * list Event) : Prop :=
  exists e, fst (fst r) = Returned (Some e).

(** *** Tag resolution *)

(** The hosting service answers the [package.json] query for the repository
    with a document whose [name] field is [name]. *)
Definition packageNamed (w : World) (githubToken owner repo name : string) : Prop :=
  exists respData packageJson,
    graphql_Run w (packageJsonRequest githubToken owner repo) = inr respData
    /\ json_Unmarshal_PackageJson w
         (Object.Text (Repository.Object (QueryResponse.Repository respData)))
       = inr packageJson
    /\ PackageJson.Name packageJson = name.

(** The registry answers the lookup of package [name] with a document whose
    [dist-tags.latest] field is [version]. *)
Definition registryLatest (w : World) (registry name version : string) : Prop :=
  exists resp body registryResponse,
    http_NewRequest w "GET" (registryURL registry name) = None
    /\ http_Do w (registryRequest registry name) = inr resp
    /\ Response.Body resp = inr body
    /\ json_Unmarshal_RegistryResponse w body = inr registryResponse
    /\ DistTags.Latest (RegistryResponse.DistTags registryResponse) = version.

(** *** The release block *)

(** The state after lines 225-227: an empty [targetCommitish] becomes the
    pull request's base branch. *)
Definition defaultTarget (repository : Repository.t) (s : State) : State :=
  if String.eqb (targetCommitish (globals s)) EmptyString
  then {| globals := set_targetCommitish
                       (PullRequest.BaseRefName (Repository.PullRequest repository))
                       (globals s);
          pending := pending s |}
  else s.

(** The release record built at line 229 from the variables [g] and a body. *)
Definition releaseOf (g : Globals) (output : string) : Release.t :=
  {| Release.TagName := tag g; Release.TargetCommitish := targetCommitish g;
     Release.Name := tag g; Release.Body := output |}.

(** The bytes [fmt.Println] writes at line 238. *)
Definition reportLine (g : Globals) : string :=
  (owner g ++ "/" ++ repo g ++ " - " ++ targetCommitish g ++ ":" ++ tag g) ++ nl.

(** *** Whole runs *)

(** [main] up to the end of pull-request resolution (lines 161-208). *)
Definition prelude (w : World) : M unit :=
  checkFlags ;; triggerStage w ;; resolveTag w ;; resolvePR w.

(** The state with the [--dry-run] flag set to [b]. *)
Definition withDry (b : bool) (s : State) : State :=
  {| globals := set_dryRun b (globals s); pending := pending s |}.

(** The flags [prelude] never assigns are the same in [g] and [g']. *)
Definition keeps (g g' : Globals) : Prop :=
  owner g' = owner g /\ repo g' = repo g /\ registry g' = registry g
  /\ targetCommitish g' = targetCommitish g /\ commit g' = commit g
  /\ dryRun g' = dryRun g /\ kafkaTopic g' = kafkaTopic g.

(** A block that sends neither a release nor a pull-request detail query and
    assigns at most [tag] and [pr]. *)
Definition quiet (m : M unit) : Prop :=
  forall s,
    published (snd (m s)) = []
    /\ detailQueries (snd (m s)) = []
    /\ keeps (globals s) (globals (snd (fst (m s)))).

(** A block that prints nothing to standard output. *)
Definition mute (m : M unit) : Prop :=
  forall s, stdout (snd (m s)) = EmptyString.

(** A block whose behaviour does not depend on the [--dry-run] flag. *)
Definition agnostic (m : M unit) : Prop :=
  forall b s,
    m (withDry b s) = (fst (fst (m s)), withDry b (snd (fst (m s))), snd (m s)).

(** A block that ends the process, if at all, with status 1. *)
Definition fatalOnly (m : M unit) : Prop :=
  forall s c, fst (fst (m s)) = Exited c -> c = 1%Z.

(** A run in which nothing is fetched, sent or printed and which ends with
    status 0. *)
Definition silentSuccess (r : Outcome unit * State * list Event) : Prop :=
  detailQueries (snd r) = []
  /\ published (snd r) = []
  /\ stdout (snd r) = EmptyString
  /\ exitStatus (fst (fst r)) = Some 0%Z.

(** *** The commit limit of the detail query *)

(** What follows the first occurrence of [marker] in [s]. *)
Fixpoint textAfter (marker s : string) : option string :=
  if String.prefix marker s
  then Some (String.substring (String.length marker)
               (String.length s - String.length marker) s)
  else match s with
       | EmptyString => None
       | String _ s' => textAfter marker s'
       end.

(** The decimal number a string starts with ([acc] holds the digits read). *)
Fixpoint leadingNumber (acc : nat) (s : string) : nat :=
  match s with
  | EmptyString => acc
  | String c s' =>
      let d := nat_of_ascii c in
      if ((48 <=? d) && (d <=? 57))%nat
      then leadingNumber (10 * acc + (d - 48)) s'
      else acc
  end.

(** The argument of [commits(first: N)] in a query text. *)
Definition queryCommitLimit (query : string) : option nat :=
  match textAfter "commits(first: " query with
  | Some rest => Some (leadingNumber 0 rest)
  | None => None
  end.

(** The hosting service's contract for [commits(first: N)]: of the pull
    request's commits [allCommits] the answer holds the first [N]. *)
Definition honoursCommitLimit (query : GraphQLRequest.t) (respData : QueryResponse.t)
  (allCommits : list CommitNodes.t) : Prop :=
  exists limit,
    queryCommitLimit (GraphQLRequest.Query query) = Some limit
    /\ commitsOf (QueryResponse.Repository respData) = firstn limit allCommits.

(** ** Sample inputs *)

(** A commit node with the given headline and author login. *)
Definition commitNode (headline login : string) : CommitNodes.t :=
  {| CommitNodes.Commit :=
       {| Commit.MessageHeadline := headline;
          Commit.AbbreviatedOid := EmptyString;
          Commit.Author := {| Author.User := {| User.Login := login |} |};
          Commit.AssociatedPullRequests := {| AssociatedPullRequests.Nodes := [] |} |} |}.

(** The repository [widget] with a pull request onto [main] that holds the
    given commits. *)
Definition repositoryWith (nodes : list CommitNodes.t) : Repository.t :=
  {| Repository.Name := "widget";
     Repository.PullRequest :=
       {| PullRequest.Title := "Release";
          PullRequest.CreatedAt := "2021-03-01T10:00:00Z";
          PullRequest.BaseRefName := "main";
          PullRequest.HeadRefOid := "0a1b2c3";
          PullRequest.Author := {| PullRequestAuthor.Login := "carol" |};
          PullRequest.Commits := {| Commits.Nodes := nodes |} |};
     Repository.Object := {| Object.Text := "{}" |} |}.

Definition sampleRepository : Repository.t :=
  repositoryWith [commitNode "fix bug" "alice"; commitNode "add test" "bob"].

(** A world with the broker address [bootstrapServers] in which every call
    succeeds, except that [http.NewRequest] fails where [rejects] says so: the
    registry's latest version is [latest], the commit belongs to the pull
    requests [PRs], and the detail query is answered with [repository]. *)
Definition worldWith (bootstrapServers : string) (rejects : string -> bool)
  (latest : string) (PRs : list PR.t) (repository : Repository.t) : World :=
  {| env_TOKEN := "token";
     env_KAFKA_BOOTSTRAP_SERVERS := bootstrapServers;
     kafka_NewConsumer := fun _ => None;
     http_NewRequest :=
       fun _ url => if rejects url then Some "invalid URL escape" else None;
     http_Do := fun _ => inr {| Response.StatusCode := 200%Z; Response.Body := inr "body" |};
     graphql_Run := fun _ => inr {| QueryResponse.Repository := repository |};
     json_Unmarshal_RegistryResponse :=
       fun _ => inr {| RegistryResponse.DistTags := {| DistTags.Latest := latest |} |};
     json_Unmarshal_PackageJson := fun _ => inr {| PackageJson.Name := "widget" |};
     json_Unmarshal_PRs := fun _ => inr PRs;
     json_Marshal_Release := fun _ => inr "{}";
     fmt_q := fun s => (dquote ++ s ++ dquote)%string |}.

(** The registry's latest version is 2.3.0 and the commit belongs to pull
    requests 42 and 7, in this order. *)
Definition sampleWorld : World :=
  worldWith "broker:9092" (fun _ => false) "2.3.0"
    [ {| PR.Number := 42%Z |}; {| PR.Number := 7%Z |} ] sampleRepository.

(** As [sampleWorld], but [http.NewRequest] rejects a URL with the invalid
    escape [%zz] in it, as [url.Parse] does. *)
Definition strictURLWorld : World :=
  worldWith "broker:9092" (fun url => strings.Contains url "%zz") "2.3.0"
    [ {| PR.Number := 42%Z |}; {| PR.Number := 7%Z |} ] sampleRepository.

(** As [sampleWorld], but the registry's latest version already starts
    with a [v]. *)
Definition prefixedVersionWorld : World :=
  worldWith "broker:9092" (fun _ => false) "v1.0.2"
    [ {| PR.Number := 42%Z |}; {| PR.Number := 7%Z |} ] sampleRepository.

(** No broker is configured and the commit belongs to no pull request. *)
Definition noPullRequestWorld : World :=
  worldWith EmptyString (fun _ => false) "2.3.0" [] sampleRepository.

(** Sixty commits, and a world whose service answers the detail query with
    the first fifty of them. *)
Definition sixtyCommits : list CommitNodes.t :=
  List.repeat (commitNode "bump version" "dave") 60.

Definition cappedRepository : Repository.t := repositoryWith (firstn 50 sixtyCommits).

Definition cappedWorld : World :=
  worldWith "broker:9092" (fun _ => false) "2.3.0"
    [ {| PR.Number := 42%Z |}; {| PR.Number := 7%Z |} ] cappedRepository.

(** The flags [--owner acme --repo widget --registry https://registry.example]
    with the given tag, pull-request number and topic, and defaults for the
    rest. *)
Definition flagsWith (tag : string) (pr : Z) (kafkaTopic : string) : Globals :=
  {| owner := "acme"; repo := "widget"; registry := "https://registry.example";
     tag := tag; targetCommitish := EmptyString; pr := pr;
     commit := "master"; dryRun := false; kafkaTopic := kafkaTopic |}.

(** Nothing but the required flags. *)
Definition sampleFlags : Globals := flagsWith EmptyString 0%Z EmptyString.

(** [--tag v2.3.0 --pr 42]. *)
Definition explicitFlags : Globals := flagsWith "v2.3.0" 42%Z EmptyString.

(** [--tag v2.3.0 --pr 42 --kafka-topic releases]. *)
Definition triggeredReleaseFlags : Globals := flagsWith "v2.3.0" 42%Z "releases".

(** [--tag v2.3.0 --pr -1 --kafka-topic releases]. *)
Definition triggeredFlags : Globals := flagsWith "v2.3.0" (-1)%Z "releases".

(** [--owner %zz --repo widget --tag v2.3.0 --pr 42]. *)
Definition badOwnerFlags : Globals :=
  {| owner := "%zz"; repo := "widget"; registry := "https://registry.example";
     tag := "v2.3.0"; targetCommitish := EmptyString; pr := 42%Z;
     commit := "master"; dryRun := false; kafkaTopic := EmptyString |}.

Definition sampleState : State := {| globals := sampleFlags; pending := [] |}.

Definition explicitState : State := {| globals := explicitFlags; pending := [] |}.

Definition sampleRelease : Release.t :=
  {| Release.TagName := "v2.3.0"; Release.TargetCommitish := "main";
     Release.Name := "v2.3.0";
     Release.Body := ("* fix bug @alice" ++ nl ++ "* add test @bob" ++ nl)%string |}.

(** ** Exists (lines 426-433)

    [os.Stat] and [os.IsNotExist] are taken from the environment: the error of
    [os.Stat(name)], if any, and whether an error says the file is missing. *)

Section Stat.

Variable os_Stat : string -> option error.
Variable os_IsNotExist : error -> bool.

Definition Exists (name : string) : bool :=
  match os_Stat name with
  | Some err => if os_IsNotExist err then false else true
  | None => true
  end.

End Stat.

(** ** Classes of events and counting *)

Definition isStdout (e : Event) : bool :=
  match e with Stdout _ => true | _ => false end.

Definition isStderr (e : Event) : bool :=
  match e with Stderr _ => true | _ => false end.

Definition isUsage (e : Event) : bool :=
  match e with Usage => true | _ => false end.

(** Anything done to the Kafka consumer. *)
Definition isKafka (e : Event) : bool :=
  match e with
  | KafkaSubscribe _ | KafkaRead _ | KafkaUnsubscribe | KafkaClose => true
  | _ => false
  end.

(** A request on the network. *)
Definition isNetwork (e : Event) : bool :=
  match e with
  | RegistryGet _ | CommitPullsGet _ | GraphQLRun _ | ReleasePost _ _ => true
  | _ => false
  end.

Definition isRegistryGet (e : Event) : bool :=
  match e with RegistryGet _ => true | _ => false end.

Definition isCommitPullsGet (e : Event) : bool :=
  match e with CommitPullsGet _ => true | _ => false end.

Definition isReleasePost (e : Event) : bool :=
  match e with ReleasePost _ _ => true | _ => false end.

(** The [package.json] query of [getNpmPackageName]. *)
Definition isPackageQuery (e : Event) : bool :=
  match e with
  | GraphQLRun req => String.eqb (GraphQLRequest.Query req) NpmPackageJsonQuery
  | _ => false
  end.

(** The detail query of [getRepositoryPullRequest]. *)
Definition isDetailQuery (e : Event) : bool :=
  match e with
  | GraphQLRun req => String.eqb (GraphQLRequest.Query req) PullRequestQuery
  | _ => false
  end.

(** A request of version resolution: the [package.json] query or the registry
    lookup. *)
Definition isVersionLookup (e : Event) : bool := isPackageQuery e || isRegistryGet e.

(** The number of events of a class in a trace. *)
Definition count (p : Event -> bool) (t : list Event) : nat :=
  List.length (filter p t).

(** A class none of whose events is local output or Kafka traffic. *)
Definition remote (p : Event -> bool) : Prop :=
  forall e, (isStdout e || isStderr e || isUsage e || isKafka e)%bool = true -> p e = false.

(** A block that keeps the property [P] of the package-level variables when
    it returns. *)
Definition preserves (P : Globals -> Prop) (m : M unit) : Prop :=
  forall s, P (globals s) -> forall a s' t, m s = (Returned a, s', t) -> P (globals s').

(** Started with [P], a block emits at most [n] events of class [p]. *)
Definition bounded (P : Globals -> Prop) (p : Event -> bool) (n : nat) (m : M unit) : Prop :=
  forall s, P (globals s) -> count p (snd (m s)) <= n.

(** Started with [P], a block does not block. *)
Definition terminates (P : Globals -> Prop) (m : M unit) : Prop :=
  forall s, P (globals s) -> fst (fst (m s)) <> Blocked.



(** The headers of a request to the hosting service's REST interface, and of
    one to its GraphQL interface. *)
Definition restHeaders (githubToken : string) : list (string * string) :=
  [("Accept", "application/vnd.github.v3+json");
   ("Authorization", ("bearer " ++ githubToken)%string)].

Definition graphqlHeaders (githubToken : string) : list (string * string) :=
  [("Authorization", ("bearer " ++ githubToken)%string)].

(** What each request of a run looks like: requests to the hosting service
    carry the bearer token and go to its host; the registry lookup is a
    [GET] without any header. *)
Definition wellFormed (w : World) (e : Event) : Prop :=
  match e with
  | RegistryGet req =>
      Request.Method req = "GET" /\ Request.Header req = [] /\ Request.Body req = None
  | CommitPullsGet req =>
      Request.Method req = "GET" /\ Request.Header req = restHeaders (env_TOKEN w)
      /\ String.prefix "https://api.github.com/repos/" (Request.URL req) = true
  | ReleasePost _ req =>
      Request.Method req = "POST" /\ Request.Header req = restHeaders (env_TOKEN w)
      /\ String.prefix "https://api.github.com/repos/" (Request.URL req) = true
  | GraphQLRun req => GraphQLRequest.Header req = graphqlHeaders (env_TOKEN w)
  | _ => True
  end.

(** Unsubscribing from the topic or closing the consumer. *)
Definition isCleanup (e : Event) : bool :=
  match e with KafkaUnsubscribe | KafkaClose => true | _ => false end.

(** As [sampleWorld], but the Kafka consumer cannot be created. *)
Definition brokerDownWorld : World :=
  {| env_TOKEN := env_TOKEN sampleWorld;
     env_KAFKA_BOOTSTRAP_SERVERS := env_KAFKA_BOOTSTRAP_SERVERS sampleWorld;
     kafka_NewConsumer := fun _ => Some "no such host";
     http_NewRequest := http_NewRequest sampleWorld;
     http_Do := http_Do sampleWorld;
     graphql_Run := graphql_Run sampleWorld;
     json_Unmarshal_RegistryResponse := json_Unmarshal_RegistryResponse sampleWorld;
     json_Unmarshal_PackageJson := json_Unmarshal_PackageJson sampleWorld;
     json_Unmarshal_PRs := json_Unmarshal_PRs sampleWorld;
     json_Marshal_Release := json_Marshal_Release sampleWorld;
     fmt_q := fmt_q sampleWorld |}.

(** The place of an event in the pipeline: Kafka traffic 0, the
    [package.json] query 1, the registry lookup 2, the pull-request lookup 3,
    the detail query 4, the release 5; local output has none. *)
Definition rank (e : Event) : option nat :=
  match e with
  | KafkaSubscribe _ | KafkaRead _ | KafkaUnsubscribe | KafkaClose => Some 0
  | GraphQLRun req =>
      if String.eqb (GraphQLRequest.Query req) NpmPackageJsonQuery then Some 1 else Some 4
  | RegistryGet _ => Some 2
  | CommitPullsGet _ => Some 3
  | ReleasePost _ _ => Some 5
  | Stdout _ | Stderr _ | Usage => None
  end.

(** The ranks of the events of a trace, in order. *)
Fixpoint ranks (t : list Event) : list nat :=
  match t with
  | [] => []
  | e :: t' =>
      match rank e with
      | Some r => r :: ranks t'
      | None => ranks t'
      end
  end.

(** A block whose events come in pipeline order, with ranks from [lo] to
    [hi]. *)
Definition inBand (lo hi : nat) (m : M unit) : Prop :=
  forall s,
    StronglySorted le (ranks (snd (m s)))
    /\ Forall (fun r => lo <= r <= hi) (ranks (snd (m s))).

(** The variables with the [--kafka-topic] flag set to [v]. *)
Definition set_kafkaTopic (v : string) (g : Globals) : Globals :=
  {| owner := owner g; repo := repo g; registry := registry g; tag := tag g;
     targetCommitish := targetCommitish g; pr := pr g; commit := commit g;
     dryRun := dryRun g; kafkaTopic := v |}.

(** The state with topic [topic] and with [msgs] still to be delivered. *)
Definition retuned (topic : string) (msgs : list ReadResult) (s : State) : State :=
  {| globals := set_kafkaTopic topic (globals s); pending := msgs |}.

(** A block whose behaviour depends neither on the topic nor on what is still
    to be delivered. *)
Definition untriggered (m : M unit) : Prop :=
  forall topic msgs s,
    m (retuned topic msgs s)
    = (fst (fst (m s)), retuned topic msgs (snd (fst (m s))), snd (m s)).

(** [main] after the trigger stage (lines 188-243). *)
Definition afterTrigger (w : World) : M unit :=
  resolveTag w ;; resolvePR w ;; releaseStage w.

(** What the listener does when the deliveries [pre], none of them a signal,
    are followed by the signal [value] (lines 256-271). *)
Definition listenerTrace (w : World) (kafkaTopic repo : string)
  (pre : list ReadResult) (value : string) : list Event :=
  [KafkaSubscribe kafkaTopic;
   Stdout (("Subscribed to " ++ kafkaTopic ++ "and waiting for message") ++ nl)]
    ++ map KafkaRead pre
    ++ [KafkaRead (ReadOk value);
        Stdout (nl ++ fmt_q w value ++ nl);
        Stdout (repo ++ " has been published" ++ nl);
        KafkaUnsubscribe; KafkaClose].

(** ** Strings *)

Lemma append_nil_r (s : string) : (s ++ EmptyString)%string = s.
Proof. induction s as [|c s IH]; simpl; [reflexivity | now rewrite IH]. Qed.

Lemma append_assoc (a b c : string) : ((a ++ b) ++ c)%string = (a ++ b ++ c)%string.
Proof. induction a as [|x a IH]; simpl; [reflexivity | now rewrite IH]. Qed.

Lemma newlines_append (a b : string) : newlines (a ++ b) = newlines a + newlines b.
Proof. induction a as [|x a IH]; simpl; [reflexivity | rewrite IH; lia]. Qed.

Lemma prefix_iff (p s : string) :
  String.prefix p s = true <-> exists r, s = (p ++ r)%string.
Proof.
  revert s; induction p as [|c p IH]; intros s.
  - split; [intros _; exists s; reflexivity | intros _; destruct s; reflexivity].
  - destruct s as [|d s]; simpl.
    + split; [discriminate | intros [r Hr]; discriminate].
    + destruct (ascii_dec c d) as [->|Hne].
      * rewrite IH. split; intros [r Hr]; exists r; [now rewrite Hr | now inversion Hr].
      * split; [discriminate | intros [r Hr]; simpl in Hr; congruence].
Qed.

(** [strings.Contains] decides substring occurrence. *)
Lemma Contains_iff (s sub : string) :
  strings.Contains s sub = true <-> isSubstring sub s.
Proof.
  unfold isSubstring. induction s as [|c s IH]; cbn [strings.Contains].
  - destruct (String.prefix sub EmptyString) eqn:Hp.
    + split; [intros _ | reflexivity].
      apply prefix_iff in Hp. destruct Hp as [r Hr]. now exists EmptyString, r.
    + split; [discriminate |].
      intros [a [b H]]. destruct a; [| discriminate]. cbn [String.append] in H.
      assert (String.prefix sub EmptyString = true) by (apply prefix_iff; now exists b).
      congruence.
  - destruct (String.prefix sub (String c s)) eqn:Hp.
    + split; [intros _ | reflexivity].
      apply prefix_iff in Hp. destruct Hp as [r Hr]. now exists EmptyString, r.
    + rewrite IH. split.
      * intros [a [b H]]. exists (String c a), b. cbn [String.append]. now rewrite H.
      * intros [a [b H]]. destruct a as [|x a]; cbn [String.append] in H.
        -- assert (String.prefix sub (String c s) = true) by (apply prefix_iff; now exists b).
           congruence.
        -- inversion H. now exists a, b.
Qed.

(** ** Changelog assembly *)

Lemma fold_changelog (nodes : list CommitNodes.t) (acc : string) :
  fold_left (fun output node => (output ++ changelogLine node)%string) nodes acc
  = (acc ++ flatten (map changelogLine nodes))%string.
Proof.
  revert acc; induction nodes as [|n nodes IH]; intros acc; simpl.
  - now rewrite append_nil_r.
  - rewrite IH. apply append_assoc.
Qed.

Lemma buildChangelog_flatten (nodes : list CommitNodes.t) :
  buildChangelog nodes = flatten (map changelogLine nodes).
Proof. unfold buildChangelog. now rewrite fold_changelog. Qed.

Lemma buildChangelog_cons (n : CommitNodes.t) (nodes : list CommitNodes.t) :
  buildChangelog (n :: nodes) = (changelogLine n ++ buildChangelog nodes)%string.
Proof. now rewrite !buildChangelog_flatten. Qed.

Lemma newlines_changelogLine (node : CommitNodes.t) :
  singleLine node -> newlines (changelogLine node) = 1.
Proof.
  intros [Hh Hl]. unfold changelogLine.
  rewrite !newlines_append, Hh, Hl. reflexivity.
Qed.

Lemma newlines_buildChangelog (nodes : list CommitNodes.t) :
  Forall singleLine nodes -> newlines (buildChangelog nodes) = List.length nodes.
Proof.
  induction 1 as [|n nodes Hn _ IH].
  - reflexivity.
  - rewrite buildChangelog_cons, newlines_append, newlines_changelogLine, IH by assumption.
    reflexivity.
Qed.

(** C1.  For every ordered commit list the changelog builder yields exactly
    one line per commit, in input order and with nothing between the lines:
    the body is the lines [changelogLine] of the commits one after the other,
    the i-th line is ["* " + headline(i) + " @" + authorLogin(i) + newline],
    there are as many lines as commits (also counted in newline bytes, when
    no headline or login holds one), and equal inputs give equal bodies.  The
    two-commit scenario of the specification is the last conjunct. *)
Theorem buildChangelog_one_line_per_commit (nodes : list CommitNodes.t) :
  buildChangelog nodes = flatten (map changelogLine nodes)
  /\ List.length (map changelogLine nodes) = List.length nodes
  /\ (forall i node,
        nth_error nodes i = Some node ->
        nth_error (map changelogLine nodes) i
        = Some ("* " ++ Commit.MessageHeadline (CommitNodes.Commit node) ++ " @"
                  ++ User.Login (Author.User (Commit.Author (CommitNodes.Commit node)))
                  ++ nl)%string)
  /\ (Forall singleLine nodes -> newlines (buildChangelog nodes) = List.length nodes)
  /\ (forall nodes', nodes' = nodes -> buildChangelog nodes' = buildChangelog nodes)
  /\ buildChangelog [commitNode "fix bug" "alice"; commitNode "add test" "bob"]
     = ("* fix bug @alice" ++ nl ++ "* add test @bob" ++ nl)%string.
Proof.
  repeat split.
  - apply buildChangelog_flatten.
  - apply length_map.
  - intros i node Hi. rewrite nth_error_map, Hi. reflexivity.
  - apply newlines_buildChangelog.
  - intros nodes' ->. reflexivity.
Qed.

Lemma buildChangelog_one_line_per_commit_witness :
  newlines (buildChangelog [commitNode "fix bug" "alice"; commitNode "add test" "bob"]) = 2.
Proof.
  apply (buildChangelog_one_line_per_commit
           [commitNode "fix bug" "alice"; commitNode "add test" "bob"]).
  repeat constructor.
Defined.

(** ** Commit-to-pull-request lookup *)

Lemma firstPRNumber_cases (PRs : list PR.t) :
  firstPRNumber PRs = match PRs with [] => 0%Z | p :: _ => PR.Number p end.
Proof. destruct PRs; reflexivity. Qed.

(** C3.  Whatever list the commit-to-pull-request lookup decodes,
    [getPullRequestNumber] returns 0 (and no error) when the list is empty and
    the number of its first element otherwise, after exactly one request; the
    elements after the first have no influence on the result. *)
Theorem getPullRequestNumber_first_or_zero
  (w : World) (githubToken owner repo commmit : string) (s : State)
  (resp : Response.t) (body : string) (PRs : list PR.t) :
  http_NewRequest w "GET" (commitPullsURL owner repo (commit (globals s))) = None ->
  http_Do w (commitPullsRequest githubToken owner repo (commit (globals s))) = inr resp ->
  Response.Body resp = inr body ->
  json_Unmarshal_PRs w body = inr PRs ->
  getPullRequestNumber w githubToken owner repo commmit s
  = (Returned (match PRs with [] => 0%Z | p :: _ => PR.Number p end, None), s,
     [CommitPullsGet (commitPullsRequest githubToken owner repo (commit (globals s)))])
  /\ (forall p rest rest', firstPRNumber (p :: rest) = firstPRNumber (p :: rest')).
Proof.
  intros Hnew Hdo Hbody Hjson. split.
  - unfold getPullRequestNumber, bind, read, gets, fatalIf, emit, ret.
    rewrite Hnew. cbn. rewrite Hdo, Hbody, Hjson, firstPRNumber_cases.
    destruct s; reflexivity.
  - reflexivity.
Qed.

Lemma getPullRequestNumber_first_or_zero_witness :
  getPullRequestNumber sampleWorld "token" "acme" "widget" "master" sampleState
  = (Returned (42%Z, None), sampleState,
     [CommitPullsGet (commitPullsRequest "token" "acme" "widget" "master")])
  /\ (forall p rest rest', firstPRNumber (p :: rest) = firstPRNumber (p :: rest')).
Proof.
  apply (getPullRequestNumber_first_or_zero sampleWorld "token" "acme" "widget" "master"
           sampleState {| Response.StatusCode := 200%Z; Response.Body := inr "body" |}
           "body" [ {| PR.Number := 42%Z |}; {| PR.Number := 7%Z |} ]);
    reflexivity.
Defined.

(** ** The trigger listener *)

Lemma isSignal_Contains (repo value : string) :
  isSignal repo (ReadOk value) <-> strings.Contains value repo = true.
Proof. symmetry. apply Contains_iff. Qed.

Lemma notSignal_Contains (repo value : string) :
  notSignal repo (ReadOk value) -> strings.Contains value repo = false.
Proof.
  unfold notSignal. rewrite isSignal_Contains.
  destruct (strings.Contains value repo); [intros H; now elim H | reflexivity].
Qed.

Lemma readLoop_no_signal (w : World) (repo : string) (msgs : list ReadResult) (s : State) :
  Forall (notSignal repo) msgs ->
  readLoop w repo msgs s
  = (Blocked, {| globals := globals s; pending := [] |}, map KafkaRead msgs).
Proof.
  intros H; revert s; induction H as [|r msgs Hr _ IH]; intros s; simpl.
  - reflexivity.
  - destruct r as [value|e].
    + rewrite (notSignal_Contains _ _ Hr), IH. reflexivity.
    + rewrite IH. reflexivity.
Qed.

Lemma readLoop_first_signal (w : World) (repo : string)
  (pre : list ReadResult) (value : string) (post : list ReadResult) (s : State) :
  Forall (notSignal repo) pre ->
  isSubstring repo value ->
  readLoop w repo (pre ++ ReadOk value :: post) s
  = (Returned tt, {| globals := globals s; pending := post |},
     map KafkaRead pre
       ++ [KafkaRead (ReadOk value);
           Stdout (nl ++ fmt_q w value ++ nl);
           Stdout (repo ++ " has been published" ++ nl)]).
Proof.
  intros Hpre Hsig; revert s; induction Hpre as [|r pre Hr _ IH]; intros s; simpl.
  - apply Contains_iff in Hsig. rewrite Hsig. reflexivity.
  - destruct r as [v|e].
    + rewrite (notSignal_Contains _ _ Hr), IH. reflexivity.
    + rewrite IH. reflexivity.
Qed.

Lemma reads_app (t1 t2 : list Event) : reads (t1 ++ t2) = reads t1 + reads t2.
Proof.
  induction t1 as [|e t1 IH]; simpl; [reflexivity |].
  destruct e; simpl; rewrite ?IH; reflexivity.
Qed.

Lemma reads_KafkaRead (msgs : list ReadResult) : reads (map KafkaRead msgs) = List.length msgs.
Proof. induction msgs as [|r msgs IH]; simpl; [reflexivity | now rewrite IH]. Qed.

Lemma subscribe_cases (w : World) (bootstrapServers kafkaTopic repo : string) (s : State) :
  subscribeToKafkaForRepoMessage w bootstrapServers kafkaTopic repo s
  = match kafka_NewConsumer w bootstrapServers with
    | Some e => (Returned (Some e), s, [])
    | None =>
        let opening :=
          [KafkaSubscribe kafkaTopic;
           Stdout (("Subscribed to " ++ kafkaTopic ++ "and waiting for message") ++ nl)] in
        match readLoop w repo (pending s) s with
        | (Returned _, s1, t) =>
            (Returned None, s1, opening ++ t ++ [KafkaUnsubscribe; KafkaClose])
        | (Exited c, s1, t) => (Exited c, s1, opening ++ t)
        | (Blocked, s1, t) => (Blocked, s1, opening ++ t)
        end
    end.
Proof.
  unfold subscribeToKafkaForRepoMessage.
  destruct (kafka_NewConsumer w bootstrapServers) as [e|]; [reflexivity |].
  cbv beta iota zeta delta [bind emit ret fmt_Println]; cbn [app].
  destruct (readLoop w repo (pending s) s) as [[[[]|c|] s1] t];
    cbn [app]; rewrite ?app_nil_r; reflexivity.
Qed.

Lemma notSignal_ReadErr (repo : string) (e : error) : notSignal repo (ReadErr e).
Proof. intros H. exact H. Qed.

Lemma notSignal_of_Contains (repo value : string) :
  strings.Contains value repo = false -> notSignal repo (ReadOk value).
Proof. intros H Hs. apply isSignal_Contains in Hs. congruence. Qed.

Lemma isSubstring_of_Contains (repo value : string) :
  strings.Contains value repo = true -> isSubstring repo value.
Proof. apply Contains_iff. Qed.

(** C6.  Once subscribed, the trigger listener returns exactly upon the first
    delivery that is a message, read without error, whose value contains the
    repository name: every delivery before it (a read error, or a message
    without the name) is consumed with no other effect, the deliveries after
    it stay unread, and the number of reads is the number of discarded
    deliveries plus one; when no delivery is such a message the listener
    never returns.  Last conjunct: given ["unrelated-repo v1"] then
    ["widget v2"] for repository ["widget"], it returns after exactly two
    reads. *)
Theorem listener_returns_on_first_signal
  (w : World) (bootstrapServers kafkaTopic repo : string)
  (pre : list ReadResult) (value : string) (post : list ReadResult) (s : State) :
  kafka_NewConsumer w bootstrapServers = None ->
  pending s = pre ++ ReadOk value :: post ->
  Forall (notSignal repo) pre ->
  isSubstring repo value ->
  subscribeToKafkaForRepoMessage w bootstrapServers kafkaTopic repo s
  = (Returned None, {| globals := globals s; pending := post |},
     [KafkaSubscribe kafkaTopic;
      Stdout (("Subscribed to " ++ kafkaTopic ++ "and waiting for message") ++ nl)]
       ++ map KafkaRead pre
       ++ [KafkaRead (ReadOk value);
           Stdout (nl ++ fmt_q w value ++ nl);
           Stdout (repo ++ " has been published" ++ nl);
           KafkaUnsubscribe; KafkaClose])
  /\ reads (snd (subscribeToKafkaForRepoMessage w bootstrapServers kafkaTopic repo s))
     = S (List.length pre)
  /\ (forall s',
        Forall (notSignal repo) (pending s') ->
        fst (fst (subscribeToKafkaForRepoMessage w bootstrapServers kafkaTopic repo s'))
        = Blocked)
  /\ (forall g,
        let r := subscribeToKafkaForRepoMessage w bootstrapServers "releases" "widget"
                   {| globals := g;
                      pending := [ReadOk "unrelated-repo v1"; ReadOk "widget v2"] |} in
        fst (fst r) = Returned None /\ reads (snd r) = 2 /\ pending (snd (fst r)) = []).
Proof.
  intros Hnew Hpending Hpre Hsig.
  rewrite !subscribe_cases, Hnew, Hpending.
  rewrite (readLoop_first_signal w repo pre value post s Hpre Hsig). cbv zeta.
  split; [| split; [| split]].
  - rewrite <- !app_assoc. reflexivity.
  - cbn [snd]. rewrite !reads_app, reads_KafkaRead. simpl. lia.
  - intros s' Hs'. rewrite subscribe_cases, Hnew.
    now rewrite (readLoop_no_signal w repo (pending s') s' Hs').
  - intros g. rewrite subscribe_cases, Hnew. cbv zeta. repeat split.
Qed.

Lemma listener_returns_on_first_signal_witness :
  reads (snd (subscribeToKafkaForRepoMessage sampleWorld "broker:9092" "releases" "widget"
                {| globals := sampleFlags;
                   pending := [ReadErr "broker unavailable"; ReadOk "unrelated-repo v1";
                               ReadOk "widget v2"; ReadOk "gadget v9"] |})) = 3.
Proof.
  apply (listener_returns_on_first_signal sampleWorld "broker:9092" "releases" "widget"
           [ReadErr "broker unavailable"; ReadOk "unrelated-repo v1"] "widget v2"
           [ReadOk "gadget v9"]
           {| globals := sampleFlags;
              pending := [ReadErr "broker unavailable"; ReadOk "unrelated-repo v1";
                          ReadOk "widget v2"; ReadOk "gadget v9"] |}).
  - reflexivity.
  - reflexivity.
  - repeat constructor.
    + apply notSignal_ReadErr.
    + apply notSignal_of_Contains. reflexivity.
  - apply isSubstring_of_Contains. reflexivity.
Defined.

(** ** The publish step *)

Lemma publishRelease_cases
  (w : World) (githubToken owner repo : string) (release : Release.t) (s : State) :
  publishRelease w githubToken owner repo release s
  = match json_Marshal_Release w release with
    | inl e => (Returned (Some e), s, [])
    | inr body =>
        match http_NewRequest w "POST" (releasesURL owner repo) with
        | Some e => (Exited 1%Z, s, [Stderr e])
        | None =>
            let req := releaseRequest githubToken owner repo body in
            match http_Do w req with
            | inl e => (Returned (Some e), s, [ReleasePost release req])
            | inr _ => (Returned None, s, [ReleasePost release req])
            end
        end
    end.
Proof.
  unfold publishRelease.
  destruct (json_Marshal_Release w release) as [e|body]; [reflexivity |].
  unfold bind, fatalIf, log_Fatal, bind, emit, os_Exit, ret.
  destruct (http_NewRequest w "POST" (releasesURL owner repo)) as [e|]; [reflexivity |].
  cbn. destruct (http_Do w (releaseRequest githubToken owner repo body)); reflexivity.
Qed.

(** C8, as the code has it.  [publishRelease] returns an error if and only if
    marshalling the record fails or the connection fails; whenever a response
    is received (any status code, any body) it returns no error, after exactly
    one write request; and when the request cannot be constructed it does not
    return at all: it logs the error and ends the process with status 1. *)
Theorem publishRelease_error_iff
  (w : World) (githubToken owner repo : string) (release : Release.t) (s : State) :
  (returnsError (publishRelease w githubToken owner repo release s)
   <-> marshalFails w release \/ connectionFails w githubToken owner repo release)
  /\ (forall body resp,
        json_Marshal_Release w release = inr body ->
        http_NewRequest w "POST" (releasesURL owner repo) = None ->
        http_Do w (releaseRequest githubToken owner repo body) = inr resp ->
        publishRelease w githubToken owner repo release s
        = (Returned None, s,
           [ReleasePost release (releaseRequest githubToken owner repo body)]))
  /\ (forall body e,
        json_Marshal_Release w release = inr body ->
        http_NewRequest w "POST" (releasesURL owner repo) = Some e ->
        publishRelease w githubToken owner repo release s
        = (Exited 1%Z, s, [Stderr e])).
Proof.
  rewrite publishRelease_cases.
  unfold returnsError, marshalFails, connectionFails.
  repeat split.
  - intros [e He].
    destruct (json_Marshal_Release w release) as [e0|body] eqn:Hm.
    + left. now exists e0.
    + right. destruct (http_NewRequest w "POST" (releasesURL owner repo)) eqn:Hn;
        [discriminate |].
      cbv zeta in He.
      destruct (http_Do w (releaseRequest githubToken owner repo body)) as [e1|resp] eqn:Hd;
        [| discriminate].
      now exists body, e1.
  - intros [[e He] | [body [e [Hm [Hn Hd]]]]].
    + rewrite He. now exists e.
    + rewrite Hm, Hn. cbv zeta. rewrite Hd. now exists e.
  - intros body resp Hm Hn Hd. rewrite Hm, Hn. cbv zeta. now rewrite Hd.
  - intros body e Hm Hn. now rewrite Hm, Hn.
Qed.

Lemma publishRelease_error_iff_witness :
  publishRelease sampleWorld "token" "acme" "widget" sampleRelease sampleState
  = (Returned None, sampleState,
     [ReleasePost sampleRelease (releaseRequest "token" "acme" "widget" "{}")]).
Proof.
  apply (proj1 (proj2 (publishRelease_error_iff sampleWorld "token" "acme" "widget"
                         sampleRelease sampleState))
           "{}"%string {| Response.StatusCode := 200%Z; Response.Body := inr "body" |});
    reflexivity.
Defined.

(** C8, as stated, fails: for the owner [%zz] the request cannot be
    constructed, which the claim counts as a transport-level failure, yet
    [publishRelease] returns no error (it ends the process instead). *)
Lemma publishRelease_construction_failure_not_returned :
  ~ (returnsError (publishRelease strictURLWorld "token" "%zz" "widget" sampleRelease sampleState)
     <-> transportFailure strictURLWorld "token" "%zz" "widget" sampleRelease).
Proof.
  intros [_ H].
  assert (Hf : transportFailure strictURLWorld "token" "%zz" "widget" sampleRelease).
  { right; left. exists "invalid URL escape". reflexivity. }
  destruct (H Hf) as [e He]. discriminate He.
Qed.

(** The failing construction is reached by a run: with [--owner %zz], a tag
    and a pull request given, the process ends inside [publishRelease] with
    status 1, the error written by [log.Fatal], and nothing is sent. *)
Example run_with_unparsable_owner :
  run strictURLWorld badOwnerFlags []
  = (Exited 1%Z,
     {| globals := set_targetCommitish "main" badOwnerFlags; pending := [] |},
     [GraphQLRun (pullRequestRequest "token" "%zz" "widget" 42%Z);
      Stderr "invalid URL escape"]).
Proof. reflexivity. Qed.

(** A response reporting a service-side validation error (status 422, as for
    a tag that already exists) is a success for [publishRelease]. *)
Example publishRelease_ignores_status (w : World) (body : string) :
  json_Marshal_Release w sampleRelease = inr body ->
  http_NewRequest w "POST" (releasesURL "acme" "widget") = None ->
  http_Do w (releaseRequest "token" "acme" "widget" body)
  = inr {| Response.StatusCode := 422%Z;
           Response.Body := inr "Validation Failed: already_exists" |} ->
  fst (fst (publishRelease w "token" "acme" "widget" sampleRelease sampleState))
  = Returned None.
Proof.
  intros Hm Hn Hd. rewrite publishRelease_cases, Hm, Hn. cbv zeta. now rewrite Hd.
Qed.

(** ** Traces *)

Lemma published_app (t1 t2 : list Event) :
  published (t1 ++ t2) = published t1 ++ published t2.
Proof.
  induction t1 as [|e t1 IH]; simpl; [reflexivity |].
  destruct e; simpl; rewrite ?IH; reflexivity.
Qed.

Lemma detailQueries_app (t1 t2 : list Event) :
  detailQueries (t1 ++ t2) = detailQueries t1 ++ detailQueries t2.
Proof.
  induction t1 as [|e t1 IH]; simpl; [reflexivity |].
  destruct e; simpl; rewrite ?IH; try reflexivity.
  destruct (GraphQLRequest.Query req =? PullRequestQuery)%string; simpl; now rewrite ?IH.
Qed.

Lemma stdout_app (t1 t2 : list Event) :
  stdout (t1 ++ t2) = (stdout t1 ++ stdout t2)%string.
Proof.
  induction t1 as [|e t1 IH]; simpl; [reflexivity |].
  destruct e; simpl; rewrite ?IH; try reflexivity.
  now rewrite append_assoc.
Qed.

Lemma keeps_trans (g1 g2 g3 : Globals) : keeps g1 g2 -> keeps g2 g3 -> keeps g1 g3.
Proof. unfold keeps. intuition congruence. Qed.

(** ** The blocks of [main] *)

(** Runs the monadic plumbing of a block, leaving its tests and calls. *)
Ltac run_monad :=
  cbv beta iota zeta delta
    [bind read gets modify emit ret when fatalIf log_Fatal os_Exit fmt_Print fmt_Println];
  cbn [app negb globals pending withDry set_tag set_pr set_targetCommitish set_dryRun
       owner repo registry tag targetCommitish pr commit dryRun kafkaTopic].

Lemma checkFlags_cases (s : State) :
  checkFlags s
  = if (len (repo (globals s)) =? 0)%nat
    then (Exited 1%Z, s, [Usage; Stderr "repo is a required parameter"])
    else if (len (owner (globals s)) =? 0)%nat
    then (Exited 1%Z, s, [Usage; Stderr "owner is a required parameter"])
    else if (len (registry (globals s)) =? 0)%nat
    then (Exited 1%Z, s, [Usage; Stderr "registry is a required parameter"])
    else (Returned tt, s, []).
Proof.
  unfold checkFlags. run_monad.
  destruct (len (repo (globals s)) =? 0)%nat; [reflexivity |].
  destruct (len (owner (globals s)) =? 0)%nat; [reflexivity |].
  destruct (len (registry (globals s)) =? 0)%nat; reflexivity.
Qed.

(** What [readLoop] leaves and emits, whatever is delivered: the variables
    are untouched and the trace holds nothing but reads and the two lines
    printed for the signal. *)
Lemma readLoop_frame (w : World) (repo : string) (msgs : list ReadResult) (s : State) :
  globals (snd (fst (readLoop w repo msgs s))) = globals s
  /\ published (snd (readLoop w repo msgs s)) = []
  /\ detailQueries (snd (readLoop w repo msgs s)) = []
  /\ (forall c, fst (fst (readLoop w repo msgs s)) <> Exited c).
Proof.
  revert s; induction msgs as [|r msgs IH]; intros s; simpl.
  - repeat split; discriminate.
  - set (s1 := {| globals := globals s; pending := msgs |}).
    specialize (IH s1). destruct (readLoop w repo msgs s1) as [[o s2] t].
    simpl in IH. destruct IH as (Hg & Hp & Hd & Ho).
    destruct r as [value|e]; [destruct (strings.Contains value repo) |]; simpl;
      repeat split; auto; discriminate.
Qed.

Lemma readLoop_withDry (w : World) (repo : string) (msgs : list ReadResult)
  (b : bool) (s : State) :
  readLoop w repo msgs (withDry b s)
  = (fst (fst (readLoop w repo msgs s)),
     withDry b (snd (fst (readLoop w repo msgs s))),
     snd (readLoop w repo msgs s)).
Proof.
  revert s; induction msgs as [|r msgs IH]; intros s; simpl.
  - reflexivity.
  - set (s1 := {| globals := globals s; pending := msgs |}).
    change {| globals := set_dryRun b (globals s); pending := msgs |} with (withDry b s1).
    rewrite IH. destruct (readLoop w repo msgs s1) as [[o s2] t]. simpl.
    destruct r as [value|e]; [destruct (strings.Contains value repo) |]; reflexivity.
Qed.

Lemma bind_Returned {A B} (m : M A) (k : A -> M B) (s s' : State) (b : B) (t : list Event) :
  bind m k s = (Returned b, s', t) ->
  exists a s1 t1 t2,
    m s = (Returned a, s1, t1) /\ k a s1 = (Returned b, s', t2) /\ t = t1 ++ t2.
Proof.
  unfold bind. destruct (m s) as [[[a|c|] s1] t1]; try discriminate.
  destruct (k a s1) as [[o s2] t2] eqn:Hk. intros H. inversion H; subst.
  now exists a, s1, t1, t2.
Qed.

Lemma quiet_bind (m k : M unit) : quiet m -> quiet k -> quiet (m ;; k).
Proof.
  intros Hm Hk s. specialize (Hm s). unfold bind.
  destruct (m s) as [[[[]|c|] s1] t1]; simpl in *; auto.
  specialize (Hk s1). destruct (k s1) as [[o s2] t2]; simpl in *.
  destruct Hm as (Hp1 & Hd1 & Hk1), Hk as (Hp2 & Hd2 & Hk2).
  rewrite published_app, detailQueries_app, Hp1, Hd1, Hp2, Hd2.
  repeat split; eauto using keeps_trans; apply (keeps_trans _ _ _ Hk1 Hk2).
Qed.

Lemma agnostic_bind (m k : M unit) : agnostic m -> agnostic k -> agnostic (m ;; k).
Proof.
  intros Hm Hk b s. unfold bind. rewrite Hm.
  destruct (m s) as [[[[]|c|] s1] t1]; simpl; try reflexivity.
  rewrite Hk. destruct (k s1) as [[o s2] t2]; reflexivity.
Qed.

Lemma checkFlags_quiet : quiet checkFlags.
Proof.
  intros s. rewrite checkFlags_cases.
  destruct (len (repo (globals s)) =? 0)%nat; [repeat split |].
  destruct (len (owner (globals s)) =? 0)%nat; [repeat split |].
  destruct (len (registry (globals s)) =? 0)%nat; repeat split.
Qed.

Lemma checkFlags_agnostic : agnostic checkFlags.
Proof.
  intros b s. rewrite !checkFlags_cases. simpl.
  destruct (len (repo (globals s)) =? 0)%nat; [reflexivity |].
  destruct (len (owner (globals s)) =? 0)%nat; [reflexivity |].
  destruct (len (registry (globals s)) =? 0)%nat; reflexivity.
Qed.

Lemma triggerStage_cases (w : World) (s : State) :
  triggerStage w s
  = if ((0 <? len (env_KAFKA_BOOTSTRAP_SERVERS w))%nat
        && (0 <? len (kafkaTopic (globals s)))%nat)%bool
    then
      match kafka_NewConsumer w (env_KAFKA_BOOTSTRAP_SERVERS w) with
      | Some e => (Exited 1%Z, s, [Stderr e])
      | None =>
          let opening :=
            [KafkaSubscribe (kafkaTopic (globals s));
             Stdout (("Subscribed to " ++ kafkaTopic (globals s)
                        ++ "and waiting for message") ++ nl)] in
          match readLoop w (repo (globals s)) (pending s) s with
          | (Returned _, s1, t) =>
              (Returned tt, s1, opening ++ t ++ [KafkaUnsubscribe; KafkaClose])
          | (Exited c, s1, t) => (Exited c, s1, opening ++ t)
          | (Blocked, s1, t) => (Blocked, s1, opening ++ t)
          end
      end
    else (Returned tt, s, []).
Proof.
  unfold triggerStage, subscribeToKafkaForRepoMessage. run_monad.
  destruct ((0 <? len (env_KAFKA_BOOTSTRAP_SERVERS w))%nat
            && (0 <? len (kafkaTopic (globals s)))%nat)%bool; [| reflexivity].
  destruct (kafka_NewConsumer w (env_KAFKA_BOOTSTRAP_SERVERS w)) as [e|]; [reflexivity |].
  run_monad.
  destruct (readLoop w (repo (globals s)) (pending s) s) as [[[[]|c|] s1] t];
    run_monad; rewrite ?app_nil_r; reflexivity.
Qed.

(** Case analysis on every test and call result a block looks at. *)
Ltac split_cases :=
  repeat (run_monad;
          match goal with
          | |- context [match ?x with _ => _ end] =>
              lazymatch x with
              | context [match _ with _ => _ end] => fail
              | _ => destruct x eqn:?
              end
          end);
  run_monad.

Ltac observe :=
  cbn [fst snd published detailQueries stdout globals pending app
       owner repo registry tag targetCommitish pr commit dryRun kafkaTopic
       set_tag set_pr set_targetCommitish set_dryRun withDry
       GraphQLRequest.Query packageJsonRequest pullRequestRequest].

Lemma queries_differ : String.eqb NpmPackageJsonQuery PullRequestQuery = false.
Proof. vm_compute. reflexivity. Qed.

Lemma triggerStage_quiet (w : World) : quiet (triggerStage w).
Proof.
  intros s. rewrite triggerStage_cases.
  destruct (_ && _)%bool; [| repeat split].
  destruct (kafka_NewConsumer w (env_KAFKA_BOOTSTRAP_SERVERS w)); [repeat split |].
  destruct (readLoop_frame w (repo (globals s)) (pending s) s) as (Hg & Hp & Hd & _).
  destruct (readLoop w (repo (globals s)) (pending s) s) as [[[[]|c|] s1] t];
    cbv zeta; simpl in Hg, Hp, Hd; observe;
    rewrite ?published_app, ?detailQueries_app, ?Hp, ?Hd, Hg;
    repeat split.
Qed.

Lemma triggerStage_agnostic (w : World) : agnostic (triggerStage w).
Proof.
  intros b s. rewrite !triggerStage_cases. observe.
  destruct (_ && _)%bool; [| reflexivity].
  destruct (kafka_NewConsumer w (env_KAFKA_BOOTSTRAP_SERVERS w)); [reflexivity |].
  rewrite readLoop_withDry.
  destruct (readLoop w (repo (globals s)) (pending s) s) as [[[[]|c|] s1] t]; reflexivity.
Qed.

Lemma resolveTag_quiet (w : World) : quiet (resolveTag w).
Proof.
  intros s. unfold resolveTag, getNpmPackageName, getLatestVersion.
  split_cases; observe; rewrite ?queries_differ; repeat split.
Qed.

Lemma resolveTag_mute (w : World) : mute (resolveTag w).
Proof.
  intros s. unfold resolveTag, getNpmPackageName, getLatestVersion.
  split_cases; reflexivity.
Qed.

Lemma resolveTag_agnostic (w : World) : agnostic (resolveTag w).
Proof.
  intros b s. unfold resolveTag, getNpmPackageName, getLatestVersion.
  observe. split_cases; reflexivity.
Qed.

Lemma resolvePR_quiet (w : World) : quiet (resolvePR w).
Proof.
  intros s. unfold resolvePR, getPullRequestNumber.
  split_cases; observe; repeat split.
Qed.

Lemma resolvePR_mute (w : World) : mute (resolvePR w).
Proof.
  intros s. unfold resolvePR, getPullRequestNumber.
  split_cases; reflexivity.
Qed.

Lemma resolvePR_agnostic (w : World) : agnostic (resolvePR w).
Proof.
  intros b s. unfold resolvePR, getPullRequestNumber.
  observe. split_cases; reflexivity.
Qed.

Lemma bind_assoc {A B C} (m : M A) (f : A -> M B) (g : B -> M C) (s : State) :
  bind (bind m f) g s = bind m (fun a => bind (f a) g) s.
Proof.
  unfold bind. destruct (m s) as [[[a|c|] s1] t1]; try reflexivity.
  destruct (f a s1) as [[[b|c|] s2] t2]; try reflexivity.
  destruct (g b s2) as [[o s3] t3]. now rewrite app_assoc.
Qed.

Lemma bind_ext {A B} (m : M A) (k k' : A -> M B) (s : State) :
  (forall a s1, k a s1 = k' a s1) -> bind m k s = bind m k' s.
Proof.
  intros H. unfold bind. destruct (m s) as [[[a|c|] s1] t1]; try reflexivity.
  now rewrite H.
Qed.

(** [main] is [prelude] followed by the release block. *)
Lemma main_prelude (w : World) (s : State) :
  main w s = bind (prelude w) (fun _ => releaseStage w) s.
Proof.
  unfold main, prelude. rewrite bind_assoc. apply bind_ext; intros _ s1.
  rewrite bind_assoc. apply bind_ext; intros _ s2.
  rewrite bind_assoc. reflexivity.
Qed.

Lemma prelude_quiet (w : World) : quiet (prelude w).
Proof.
  unfold prelude.
  auto using quiet_bind, checkFlags_quiet, triggerStage_quiet, resolveTag_quiet,
    resolvePR_quiet.
Qed.

Lemma prelude_agnostic (w : World) : agnostic (prelude w).
Proof.
  unfold prelude.
  auto using agnostic_bind, checkFlags_agnostic, triggerStage_agnostic,
    resolveTag_agnostic, resolvePR_agnostic.
Qed.

Lemma len_zero (x : string) : (len x =? 0)%nat = true <-> x = EmptyString.
Proof.
  destruct x; simpl; split; intros H; try reflexivity; discriminate.
Qed.

Lemma len_nonzero (x : string) : (len x =? 0)%nat = false <-> x <> EmptyString.
Proof.
  destruct x; simpl; split; intros H; try congruence; discriminate.
Qed.

Lemma triggerStage_globals (w : World) (s : State) :
  globals (snd (fst (triggerStage w s))) = globals s.
Proof.
  rewrite triggerStage_cases.
  destruct (_ && _)%bool; [| reflexivity].
  destruct (kafka_NewConsumer w (env_KAFKA_BOOTSTRAP_SERVERS w)); [reflexivity |].
  destruct (readLoop_frame w (repo (globals s)) (pending s) s) as (Hg & _).
  destruct (readLoop w (repo (globals s)) (pending s) s) as [[[[]|c|] s1] t]; exact Hg.
Qed.

(** ** Tag resolution *)

Lemma getLatestVersion_latest (w : World) (registry name version : string) (s : State) :
  registryLatest w registry name version ->
  getLatestVersion w registry name s
  = (Returned (version, None), s, [RegistryGet (registryRequest registry name)]).
Proof.
  intros (resp & body & rr & Hn & Hd & Hb & Hj & Hv).
  unfold getLatestVersion. run_monad. rewrite Hn. run_monad.
  rewrite Hd, Hb, Hj, Hv. reflexivity.
Qed.

Lemma getNpmPackageName_name (w : World) (githubToken owner repo name : string) (s : State) :
  packageNamed w githubToken owner repo name ->
  getNpmPackageName w githubToken owner repo s
  = (Returned (name, None), s, [GraphQLRun (packageJsonRequest githubToken owner repo)]).
Proof.
  intros (respData & pj & Hg & Hj & Hname).
  unfold getNpmPackageName. run_monad. rewrite Hg, Hj, Hname. reflexivity.
Qed.

(** What a returning [resolveTag] leaves: with a tag given nothing is done;
    with none, the tag is ["v"] followed by the registry's latest version of
    the package named in [package.json]. *)
Lemma resolveTag_Returned (w : World) (s s' : State) (t : list Event) :
  resolveTag w s = (Returned tt, s', t) ->
  repo (globals s) <> EmptyString ->
  pending s' = pending s
  /\ pr (globals s') = pr (globals s)
  /\ (tag (globals s) <> EmptyString -> tag (globals s') = tag (globals s))
  /\ (tag (globals s) = EmptyString ->
      exists name version,
        packageNamed w (env_TOKEN w) (owner (globals s)) (repo (globals s)) name
        /\ registryLatest w (registry (globals s)) name version
        /\ tag (globals s') = ("v" ++ version)%string).
Proof.
  intros H Hrepo. apply len_nonzero in Hrepo.
  unfold resolveTag, getNpmPackageName, getLatestVersion in H.
  revert H. run_monad. rewrite Hrepo.
  destruct (len (tag (globals s)) =? 0)%nat eqn:Htag; cbn [andb negb]; run_monad.
  - apply len_zero in Htag.
    destruct (graphql_Run w _) as [e|respData] eqn:Hg; run_monad; [discriminate |].
    destruct (json_Unmarshal_PackageJson w _) as [e|pj] eqn:Hj; run_monad; [discriminate |].
    destruct (http_NewRequest w "GET" _) as [e|] eqn:Hn; run_monad; [discriminate |].
    destruct (http_Do w _) as [e|resp] eqn:Hd; run_monad; [discriminate |].
    destruct (Response.Body resp) as [e|body] eqn:Hb; run_monad; [discriminate |].
    destruct (json_Unmarshal_RegistryResponse w body) as [e|rr] eqn:Hr; run_monad;
      [discriminate |].
    intros H; inversion H; subst; clear H. cbn.
    repeat split; try congruence.
    intros _. exists (PackageJson.Name pj), (DistTags.Latest (RegistryResponse.DistTags rr)).
    repeat split.
    + now exists respData, pj.
    + now exists resp, body, rr.
  - apply len_nonzero in Htag.
    intros H; inversion H; subst; clear H. repeat split; congruence.
Qed.

Lemma resolveTag_resolved
  (w : World) (s : State) (name version : string) :
  tag (globals s) = EmptyString ->
  repo (globals s) <> EmptyString ->
  packageNamed w (env_TOKEN w) (owner (globals s)) (repo (globals s)) name ->
  registryLatest w (registry (globals s)) name version ->
  resolveTag w s
  = (Returned tt,
     {| globals := set_tag ("v" ++ version) (globals s); pending := pending s |},
     [GraphQLRun (packageJsonRequest (env_TOKEN w) (owner (globals s)) (repo (globals s)));
      RegistryGet (registryRequest (registry (globals s)) name)]).
Proof.
  intros Htag Hrepo Hname Hlatest.
  apply len_nonzero in Hrepo. unfold resolveTag. run_monad.
  rewrite Htag, Hrepo. cbn [len String.length Nat.eqb andb negb].
  run_monad. rewrite (getNpmPackageName_name _ _ _ _ _ _ Hname). run_monad.
  rewrite (getLatestVersion_latest _ _ _ _ _ Hlatest). run_monad. reflexivity.
Qed.

(** A latest version that already starts with [v] gives a tag starting
    with [vv]. *)
Example resolveTag_keeps_existing_v :
  tag (globals (snd (fst (resolveTag prefixedVersionWorld sampleState)))) = "vv1.0.2"%string.
Proof. reflexivity. Qed.

(** A given tag is left alone and no request is made. *)
Lemma resolveTag_explicit (w : World) (s : State) :
  tag (globals s) <> EmptyString -> resolveTag w s = (Returned tt, s, []).
Proof.
  intros H. apply len_nonzero in H. unfold resolveTag. run_monad. now rewrite H.
Qed.

(** ** Pull-request resolution *)

Lemma resolvePR_tag (w : World) (s : State) :
  tag (globals (snd (fst (resolvePR w s)))) = tag (globals s)
  /\ pending (snd (fst (resolvePR w s))) = pending s.
Proof.
  unfold resolvePR, getPullRequestNumber. split_cases; split; reflexivity.
Qed.

(** A given pull-request number is left alone and no lookup is made. *)
Lemma resolvePR_explicit (w : World) (s : State) :
  pr (globals s) <> 0%Z -> resolvePR w s = (Returned tt, s, []).
Proof.
  intros H. apply Z.eqb_neq in H. unfold resolvePR. run_monad. now rewrite H.
Qed.

(** ** The release block *)

Lemma constructRelease_cases (repository : Repository.t) (s : State) :
  constructRelease repository s
  = if String.eqb (tag (globals s)) EmptyString
    then (Exited 1%Z, s, [Stderr "Need to provide tag to publish release"])
    else
      let s1 := defaultTarget repository s in
      let output := buildChangelog (commitsOf repository) in
      (Returned (releaseOf (globals s1) output, output), s1, []).
Proof.
  unfold constructRelease, defaultTarget, releaseOf, commitsOf. run_monad.
  destruct (String.eqb (tag (globals s)) EmptyString); run_monad; [reflexivity |].
  destruct (String.eqb (targetCommitish (globals s)) EmptyString); run_monad; reflexivity.
Qed.

Lemma defaultTarget_keeps (repository : Repository.t) (s : State) :
  owner (globals (defaultTarget repository s)) = owner (globals s)
  /\ repo (globals (defaultTarget repository s)) = repo (globals s)
  /\ tag (globals (defaultTarget repository s)) = tag (globals s)
  /\ pr (globals (defaultTarget repository s)) = pr (globals s)
  /\ dryRun (globals (defaultTarget repository s)) = dryRun (globals s)
  /\ pending (defaultTarget repository s) = pending s.
Proof.
  unfold defaultTarget.
  destruct (String.eqb (targetCommitish (globals s)) EmptyString); repeat split.
Qed.

Lemma defaultTarget_target (repository : Repository.t) (s : State) :
  targetCommitish (globals (defaultTarget repository s))
  = if String.eqb (targetCommitish (globals s)) EmptyString
    then PullRequest.BaseRefName (Repository.PullRequest repository)
    else targetCommitish (globals s).
Proof.
  unfold defaultTarget.
  destruct (String.eqb (targetCommitish (globals s)) EmptyString); reflexivity.
Qed.

(** Every path through lines 210-242. *)
Lemma releaseStage_cases (w : World) (s : State) :
  releaseStage w s
  = if (0 <? pr (globals s))%Z then
      let query := pullRequestRequest (env_TOKEN w) (owner (globals s)) (repo (globals s))
                     (pr (globals s)) in
      match graphql_Run w query with
      | inl e => (Exited 1%Z, s, [GraphQLRun query; Stderr e])
      | inr respData =>
          let repository := QueryResponse.Repository respData in
          let output := buildChangelog (commitsOf repository) in
          if String.eqb (tag (globals s)) EmptyString then
            (Exited 1%Z, s,
             [GraphQLRun query; Stderr "Need to provide tag to publish release"])
          else
            let s1 := defaultTarget repository s in
            let g1 := globals s1 in
            let release := releaseOf g1 output in
            if dryRun g1 then
              (Exited 0%Z, s1, [GraphQLRun query; Stdout (reportLine g1); Stdout output])
            else
              match json_Marshal_Release w release with
              | inl e => (Exited 1%Z, s1, [GraphQLRun query; Stderr e])
              | inr body =>
                  match http_NewRequest w "POST" (releasesURL (owner g1) (repo g1)) with
                  | Some e => (Exited 1%Z, s1, [GraphQLRun query; Stderr e])
                  | None =>
                      let post := releaseRequest (env_TOKEN w) (owner g1) (repo g1) body in
                      match http_Do w post with
                      | inl e =>
                          (Exited 1%Z, s1,
                           [GraphQLRun query; ReleasePost release post; Stderr e])
                      | inr _ =>
                          (Exited 0%Z, s1,
                           [GraphQLRun query; ReleasePost release post;
                            Stdout (reportLine g1); Stdout output])
                      end
                  end
              end
      end
    else (Returned tt, s, []).
Proof.
  unfold releaseStage. run_monad.
  destruct (0 <? pr (globals s))%Z; [| reflexivity].
  unfold getRepositoryPullRequest. run_monad.
  destruct (graphql_Run w _) as [e|respData]; run_monad; [reflexivity |].
  rewrite constructRelease_cases.
  destruct (String.eqb (tag (globals s)) EmptyString); run_monad; [reflexivity |].
  destruct (dryRun (globals (defaultTarget (QueryResponse.Repository respData) s)));
    run_monad; [reflexivity |].
  rewrite publishRelease_cases.
  destruct (json_Marshal_Release w _) as [e|body]; run_monad; [reflexivity |].
  destruct (http_NewRequest w "POST" _) as [e|]; run_monad; [reflexivity |].
  destruct (http_Do w _) as [e|resp]; run_monad; reflexivity.
Qed.

(** ** Whole runs *)

Lemma fatalOnly_bind (m k : M unit) : fatalOnly m -> fatalOnly k -> fatalOnly (m ;; k).
Proof.
  intros Hm Hk s c. specialize (Hm s c). unfold bind.
  destruct (m s) as [[[[]|c1|] s1] t1]; simpl in *; auto; try discriminate.
  specialize (Hk s1 c). destruct (k s1) as [[o s2] t2]; simpl in *. exact Hk.
Qed.

Lemma checkFlags_fatalOnly : fatalOnly checkFlags.
Proof.
  intros s c. rewrite checkFlags_cases.
  destruct (len (repo (globals s)) =? 0)%nat; [simpl; congruence |].
  destruct (len (owner (globals s)) =? 0)%nat; [simpl; congruence |].
  destruct (len (registry (globals s)) =? 0)%nat; simpl; congruence.
Qed.

Lemma triggerStage_fatalOnly (w : World) : fatalOnly (triggerStage w).
Proof.
  intros s c. rewrite triggerStage_cases.
  destruct (_ && _)%bool; [| simpl; congruence].
  destruct (kafka_NewConsumer w (env_KAFKA_BOOTSTRAP_SERVERS w)); [simpl; congruence |].
  destruct (readLoop_frame w (repo (globals s)) (pending s) s) as (_ & _ & _ & Ho).
  destruct (readLoop w (repo (globals s)) (pending s) s) as [[[[]|c1|] s1] t];
    simpl in *; try congruence.
Qed.

Lemma resolveTag_fatalOnly (w : World) : fatalOnly (resolveTag w).
Proof.
  intros s c. unfold resolveTag, getNpmPackageName, getLatestVersion.
  split_cases; simpl; congruence.
Qed.

Lemma resolvePR_fatalOnly (w : World) : fatalOnly (resolvePR w).
Proof.
  intros s c. unfold resolvePR, getPullRequestNumber.
  split_cases; simpl; congruence.
Qed.

Lemma prelude_fatalOnly (w : World) : fatalOnly (prelude w).
Proof.
  unfold prelude.
  auto using fatalOnly_bind, checkFlags_fatalOnly, triggerStage_fatalOnly,
    resolveTag_fatalOnly, resolvePR_fatalOnly.
Qed.

Lemma checkFlags_Returned (s s' : State) (t : list Event) :
  checkFlags s = (Returned tt, s', t) ->
  s' = s /\ t = [] /\ repo (globals s) <> EmptyString.
Proof.
  rewrite checkFlags_cases.
  destruct (len (repo (globals s)) =? 0)%nat eqn:Hr; [discriminate |].
  destruct (len (owner (globals s)) =? 0)%nat; [discriminate |].
  destruct (len (registry (globals s)) =? 0)%nat; [discriminate |].
  intros H; inversion H; subst. apply len_nonzero in Hr. auto.
Qed.

(** What a returning [prelude] has done: it printed what the trigger block
    printed and nothing else, and the tag is the given one or, with none
    given, ["v"] followed by the registry's latest version. *)
Lemma prelude_Returned (w : World) (s s' : State) (t : list Event) :
  prelude w s = (Returned tt, s', t) ->
  stdout t = stdout (snd (triggerStage w s))
  /\ (tag (globals s) <> EmptyString -> tag (globals s') = tag (globals s))
  /\ (tag (globals s) = EmptyString ->
      exists name version,
        packageNamed w (env_TOKEN w) (owner (globals s)) (repo (globals s)) name
        /\ registryLatest w (registry (globals s)) name version
        /\ tag (globals s') = ("v" ++ version)%string).
Proof.
  unfold prelude. intros H.
  apply bind_Returned in H. destruct H as ([] & s1 & t1 & t1' & Hc & H & ->).
  apply bind_Returned in H. destruct H as ([] & s2 & t2 & t2' & Ht & H & ->).
  apply bind_Returned in H. destruct H as ([] & s3 & t3 & t4 & Hv & Hp & ->).
  apply checkFlags_Returned in Hc. destruct Hc as (-> & -> & Hrepo).
  pose proof (triggerStage_globals w s) as Hg. rewrite Ht in Hg. simpl in Hg.
  pose proof (resolveTag_mute w s2) as Hm3. rewrite Hv in Hm3. simpl in Hm3.
  pose proof (resolvePR_mute w s3) as Hm4. rewrite Hp in Hm4. simpl in Hm4.
  pose proof (resolvePR_tag w s3) as [Htag4 _]. rewrite Hp in Htag4. simpl in Htag4.
  apply resolveTag_Returned in Hv; [| now rewrite Hg].
  destruct Hv as (_ & _ & Hkeep & Hnew). rewrite Hg in *.
  rewrite Ht, Htag4. simpl. rewrite !stdout_app, Hm3, Hm4, !append_nil_r.
  auto.
Qed.

Lemma run_cases (w : World) (g : Globals) (msgs : list ReadResult) :
  run w g msgs
  = match prelude w {| globals := g; pending := msgs |} with
    | (Returned _, s1, t1) =>
        match releaseStage w s1 with
        | (o, s2, t2) => (o, s2, t1 ++ t2)
        end
    | (Exited c, s1, t1) => (Exited c, s1, t1)
    | (Blocked, s1, t1) => (Blocked, s1, t1)
    end.
Proof. unfold run. rewrite main_prelude. reflexivity. Qed.

(** A release is sent only by a release block that fetched the pull request,
    found a tag, was not a dry run, and built the record from the variables
    as they stand after the target default. *)
Lemma releaseStage_published (w : World) (s : State) (release : Release.t) :
  In release (published (snd (releaseStage w s))) ->
  exists respData,
    graphql_Run w (pullRequestRequest (env_TOKEN w) (owner (globals s)) (repo (globals s))
                     (pr (globals s))) = inr respData
    /\ tag (globals s) <> EmptyString
    /\ dryRun (globals s) = false
    /\ snd (fst (releaseStage w s)) = defaultTarget (QueryResponse.Repository respData) s
    /\ release = releaseOf (globals (defaultTarget (QueryResponse.Repository respData) s))
                   (buildChangelog (commitsOf (QueryResponse.Repository respData))).
Proof.
  rewrite releaseStage_cases.
  destruct (0 <? pr (globals s))%Z; [| intros []].
  cbv zeta. destruct (graphql_Run w _) as [e|respData] eqn:Hq; [intros [] |].
  destruct (String.eqb (tag (globals s)) EmptyString) eqn:Htag; [intros [] |].
  apply String.eqb_neq in Htag.
  destruct (defaultTarget_keeps (QueryResponse.Repository respData) s)
    as (_ & _ & _ & _ & Hdry & _).
  rewrite Hdry. destruct (dryRun (globals s)); [intros [] |].
  destruct (json_Marshal_Release w _) as [e|body]; [intros [] |].
  destruct (http_NewRequest w "POST" _) as [e|]; [intros [] |].
  destruct (http_Do w _) as [e|resp]; simpl; intros [<- | []];
    exists respData; auto.
Qed.

(** The same for a whole run, in terms of the flags it was started with. *)
Lemma run_published (w : World) (g : Globals) (msgs : list ReadResult) (release : Release.t) :
  In release (published (snd (run w g msgs))) ->
  exists s1 t1 respData,
    prelude w {| globals := g; pending := msgs |} = (Returned tt, s1, t1)
    /\ graphql_Run w (pullRequestRequest (env_TOKEN w) (owner g) (repo g) (pr (globals s1)))
       = inr respData
    /\ tag (globals s1) <> EmptyString
    /\ targetCommitish (globals s1) = targetCommitish g
    /\ dryRun g = false
    /\ snd (fst (run w g msgs)) = defaultTarget (QueryResponse.Repository respData) s1
    /\ release = releaseOf (globals (defaultTarget (QueryResponse.Repository respData) s1))
                   (buildChangelog (commitsOf (QueryResponse.Repository respData))).
Proof.
  rewrite run_cases.
  destruct (prelude_quiet w {| globals := g; pending := msgs |}) as (Hp & _ & Hk).
  destruct (prelude w {| globals := g; pending := msgs |}) as [[[[]|c|] s1] t1] eqn:Hpre;
    simpl in Hp, Hk; try (simpl; rewrite Hp; intros []).
  pose proof (releaseStage_published w s1 release) as Hrel.
  destruct (releaseStage w s1) as [[o s2] t2]. simpl in *.
  rewrite published_app, Hp. simpl. intros Hin.
  destruct (Hrel Hin) as (respData & Hq & Htag & Hdry & Hs2 & Hr).
  destruct Hk as (Ho & Hrepo & _ & Htc & _ & Hd & _).
  exists s1, t1, respData. rewrite <- Ho, <- Hrepo, <- Hd. repeat split; assumption.
Qed.

(** C7.  Every release a run sends carries a non-empty tag name; and with an
    empty tag at the point where the release record is to be built, the fatal
    error is raised instead: no record is built, nothing is sent, nothing is
    printed, and the process does not end with status 0. *)
Theorem publish_needs_tag (w : World) :
  (forall g msgs,
     Forall (fun release => Release.TagName release <> EmptyString)
       (published (snd (run w g msgs))))
  /\ (forall repository s,
        tag (globals s) = EmptyString ->
        constructRelease repository s
        = (Exited 1%Z, s, [Stderr "Need to provide tag to publish release"]))
  /\ (forall s,
        tag (globals s) = EmptyString ->
        published (snd (releaseStage w s)) = []
        /\ stdout (snd (releaseStage w s)) = EmptyString
        /\ fst (fst (releaseStage w s)) <> Exited 0%Z
        /\ (forall respData,
              (0 < pr (globals s))%Z ->
              graphql_Run w (pullRequestRequest (env_TOKEN w) (owner (globals s))
                               (repo (globals s)) (pr (globals s))) = inr respData ->
              releaseStage w s
              = (Exited 1%Z, s,
                 [GraphQLRun (pullRequestRequest (env_TOKEN w) (owner (globals s))
                                (repo (globals s)) (pr (globals s)));
                  Stderr "Need to provide tag to publish release"]))).
Proof.
  split; [| split].
  - intros g msgs. apply Forall_forall. intros release Hin.
    apply run_published in Hin.
    destruct Hin as (s1 & t1 & respData & _ & _ & Htag & _ & _ & _ & ->).
    unfold releaseOf. simpl.
    now destruct (defaultTarget_keeps (QueryResponse.Repository respData) s1)
      as (_ & _ & -> & _).
  - intros repository s Htag. rewrite constructRelease_cases, Htag. reflexivity.
  - intros s Htag. rewrite releaseStage_cases, Htag.
    destruct (0 <? pr (globals s))%Z eqn:Hpr.
    + cbv zeta. destruct (graphql_Run w _) as [e|respData];
        repeat split; discriminate.
    + repeat split; try discriminate.
      intros respData Hlt. apply Z.ltb_lt in Hlt. congruence.
Qed.

Lemma publish_needs_tag_witness :
  constructRelease sampleRepository sampleState
  = (Exited 1%Z, sampleState, [Stderr "Need to provide tag to publish release"]).
Proof.
  apply (proj1 (proj2 (publish_needs_tag sampleWorld))). reflexivity.
Defined.

(** C5.  Whenever a release record is built, its target is the given
    [targetRef] when one was given and the fetched pull request's base branch
    name otherwise; this is also the target of every release a run sends,
    where the pull request is the one the run resolved. *)
Theorem release_target_default (w : World) :
  (forall repository s release output s' t,
     constructRelease repository s = (Returned (release, output), s', t) ->
     Release.TargetCommitish release
     = if String.eqb (targetCommitish (globals s)) EmptyString
       then PullRequest.BaseRefName (Repository.PullRequest repository)
       else targetCommitish (globals s))
  /\ (forall g msgs release,
        In release (published (snd (run w g msgs))) ->
        (targetCommitish g <> EmptyString ->
         Release.TargetCommitish release = targetCommitish g)
        /\ (targetCommitish g = EmptyString ->
            exists respData,
              graphql_Run w (pullRequestRequest (env_TOKEN w) (owner g) (repo g)
                               (pr (globals (snd (fst (run w g msgs))))))
              = inr respData
              /\ Release.TargetCommitish release
                 = PullRequest.BaseRefName
                     (Repository.PullRequest (QueryResponse.Repository respData)))).
Proof.
  split.
  - intros repository s release output s' t. rewrite constructRelease_cases.
    destruct (String.eqb (tag (globals s)) EmptyString); [discriminate |].
    cbv zeta. intros H; inversion H; subst. unfold releaseOf. simpl.
    apply defaultTarget_target.
  - intros g msgs release Hin. apply run_published in Hin.
    destruct Hin as (s1 & t1 & respData & _ & Hq & _ & Htc & _ & Hfinal & ->).
    unfold releaseOf. simpl. rewrite defaultTarget_target, Htc, Hfinal.
    destruct (defaultTarget_keeps (QueryResponse.Repository respData) s1)
      as (_ & _ & _ & -> & _).
    split.
    + intros Hne. apply String.eqb_neq in Hne. now rewrite Hne.
    + intros ->. exists respData. split; [exact Hq | reflexivity].
Qed.

Lemma release_target_default_witness :
  Release.TargetCommitish
    (releaseOf (set_targetCommitish "main" explicitFlags)
       (buildChangelog (commitsOf sampleRepository)))
  = "main"%string.
Proof.
  apply (proj1 (release_target_default sampleWorld) sampleRepository explicitState
           (releaseOf (set_targetCommitish "main" explicitFlags)
              (buildChangelog (commitsOf sampleRepository)))
           (buildChangelog (commitsOf sampleRepository))
           {| globals := set_targetCommitish "main" explicitFlags; pending := [] |}
           []).
  reflexivity.
Defined.

Lemma triggerStage_skipped (w : World) (s : State) :
  env_KAFKA_BOOTSTRAP_SERVERS w = EmptyString \/ kafkaTopic (globals s) = EmptyString ->
  triggerStage w s = (Returned tt, s, []).
Proof.
  intros H. rewrite triggerStage_cases.
  destruct H as [-> | ->]; simpl; [reflexivity |].
  now rewrite andb_false_r.
Qed.

(** ** Dry run against real run *)

Lemma defaultTarget_withDry (repository : Repository.t) (b : bool) (s : State) :
  defaultTarget repository (withDry b s) = withDry b (defaultTarget repository s).
Proof.
  unfold defaultTarget. simpl.
  destruct (String.eqb (targetCommitish (globals s)) EmptyString); reflexivity.
Qed.

Lemma releaseStage_dry_silent (w : World) (s : State) :
  dryRun (globals s) = true -> published (snd (releaseStage w s)) = [].
Proof.
  intros Hdry. destruct (published (snd (releaseStage w s))) as [|release l] eqn:Hp;
    [reflexivity |].
  destruct (releaseStage_published w s release) as (_ & _ & _ & H & _).
  - rewrite Hp. now left.
  - congruence.
Qed.

(** A release block that ends with status 0 outside dry-run mode fetched the
    pull request, sent the release and printed the report. *)
Lemma releaseStage_success (w : World) (s : State) :
  dryRun (globals s) = false ->
  fst (fst (releaseStage w s)) = Exited 0%Z ->
  exists respData body,
    let query := pullRequestRequest (env_TOKEN w) (owner (globals s)) (repo (globals s))
                   (pr (globals s)) in
    let s1 := defaultTarget (QueryResponse.Repository respData) s in
    let output := buildChangelog (commitsOf (QueryResponse.Repository respData)) in
    (0 < pr (globals s))%Z
    /\ graphql_Run w query = inr respData
    /\ tag (globals s) <> EmptyString
    /\ releaseStage w s
       = (Exited 0%Z, s1,
          [GraphQLRun query;
           ReleasePost (releaseOf (globals s1) output)
             (releaseRequest (env_TOKEN w) (owner (globals s1)) (repo (globals s1)) body);
           Stdout (reportLine (globals s1)); Stdout output]).
Proof.
  intros Hdry. rewrite releaseStage_cases.
  destruct (0 <? pr (globals s))%Z eqn:Hpr; [| discriminate].
  apply Z.ltb_lt in Hpr. cbv zeta.
  destruct (graphql_Run w _) as [e|respData] eqn:Hq; [discriminate |].
  destruct (String.eqb (tag (globals s)) EmptyString) eqn:Htag; [discriminate |].
  apply String.eqb_neq in Htag.
  destruct (defaultTarget_keeps (QueryResponse.Repository respData) s)
    as (_ & _ & _ & _ & Hd & _).
  rewrite Hd, Hdry.
  destruct (json_Marshal_Release w _) as [e|body]; [discriminate |].
  destruct (http_NewRequest w "POST" _) as [e|]; [discriminate |].
  destruct (http_Do w _) as [e|resp]; [discriminate |].
  intros _. exists respData, body. auto.
Qed.

(** The release block in dry-run mode, once the pull request is fetched and
    a tag is there. *)
Lemma releaseStage_dry (w : World) (s : State) (respData : QueryResponse.t) :
  dryRun (globals s) = true ->
  (0 < pr (globals s))%Z ->
  graphql_Run w (pullRequestRequest (env_TOKEN w) (owner (globals s)) (repo (globals s))
                   (pr (globals s))) = inr respData ->
  tag (globals s) <> EmptyString ->
  releaseStage w s
  = (Exited 0%Z, defaultTarget (QueryResponse.Repository respData) s,
     [GraphQLRun (pullRequestRequest (env_TOKEN w) (owner (globals s)) (repo (globals s))
                    (pr (globals s)));
      Stdout (reportLine (globals (defaultTarget (QueryResponse.Repository respData) s)));
      Stdout (buildChangelog (commitsOf (QueryResponse.Repository respData)))]).
Proof.
  intros Hdry Hpr Hq Htag. rewrite releaseStage_cases.
  apply Z.ltb_lt in Hpr. apply String.eqb_neq in Htag.
  rewrite Hpr. cbv zeta. rewrite Hq, Htag.
  destruct (defaultTarget_keeps (QueryResponse.Repository respData) s)
    as (_ & _ & _ & _ & Hd & _).
  now rewrite Hd, Hdry.
Qed.

Lemma reportLine_withDry (b : bool) (g : Globals) : reportLine (set_dryRun b g) = reportLine g.
Proof. reflexivity. Qed.

(** C2, as the code has it.  A dry run never sends a release.  And when the
    real run (the same flags without [--dry-run], in the same world) succeeds,
    the dry run ends with status 0 too, leaves the same variables, and writes
    the same bytes to standard output: the lines of the trigger listener if it
    ran, then the line [<owner>/<repo> - <targetCommitish>:<tag>] followed by
    the changelog body, which is also the body of the release the real run
    sent.  When the listener is not configured the output is that line and
    the body, and nothing else. *)
Theorem dry_run_same_output (w : World) (g : Globals) (msgs : list ReadResult) :
  let real := run w (set_dryRun false g) msgs in
  let dry := run w (set_dryRun true g) msgs in
  published (snd dry) = []
  /\ (fst (fst real) = Exited 0%Z ->
      fst (fst dry) = Exited 0%Z
      /\ stdout (snd dry) = stdout (snd real)
      /\ snd (fst dry) = withDry true (snd (fst real))
      /\ exists respData,
           let g' := globals (snd (fst real)) in
           let body := buildChangelog (commitsOf (QueryResponse.Repository respData)) in
           graphql_Run w (pullRequestRequest (env_TOKEN w) (owner g) (repo g) (pr g'))
           = inr respData
           /\ published (snd real) = [releaseOf g' body]
           /\ stdout (snd real)
              = (stdout (snd (triggerStage w {| globals := set_dryRun false g;
                                                pending := msgs |}))
                   ++ reportLine g' ++ body)%string
           /\ (env_KAFKA_BOOTSTRAP_SERVERS w = EmptyString \/ kafkaTopic g = EmptyString ->
               stdout (snd real) = (reportLine g' ++ body)%string)).
Proof.
  cbv zeta. rewrite !run_cases.
  set (s0 := {| globals := g; pending := msgs |}).
  change {| globals := set_dryRun true g; pending := msgs |} with (withDry true s0).
  change {| globals := set_dryRun false g; pending := msgs |} with (withDry false s0).
  rewrite !prelude_agnostic.
  destruct (prelude_quiet w s0) as (Hp & _ & Hk).
  pose proof (prelude_fatalOnly w s0) as Hf.
  pose proof (prelude_Returned w (withDry false s0)) as Hout.
  rewrite prelude_agnostic in Hout.
  destruct (prelude w s0) as [[[[]|c|] s1] t1] eqn:Hpre; simpl in Hp, Hk, Hf, Hout |- *.
  - (* the release block runs *)
    split.
    + pose proof (releaseStage_dry_silent w (withDry true s1) eq_refl) as Hd.
      destruct (releaseStage w (withDry true s1)) as [[o s2] t2].
      simpl in *. now rewrite published_app, Hp, Hd.
    + destruct (Hout _ _ eq_refl) as (Hstd & _). clear Hout.
      intros Hreal.
      destruct (releaseStage_success w (withDry false s1) eq_refl) as
        (respData & body & Hpr & Hq & Htag & Hrun).
      { destruct (releaseStage w (withDry false s1)) as [[o s2] t2]. exact Hreal. }
      cbv zeta in Hrun. rewrite Hrun.
      rewrite (releaseStage_dry w (withDry true s1) respData eq_refl Hpr Hq Htag).
      rewrite !defaultTarget_withDry. simpl.
      rewrite !stdout_app, !published_app, Hp. simpl.
      rewrite !reportLine_withDry, append_nil_r.
      repeat split.
      exists respData. simpl in Hq.
      destruct Hk as (Ho & Hr & _).
      destruct (defaultTarget_keeps (QueryResponse.Repository respData) s1)
        as (_ & _ & _ & Hpr' & _).
      rewrite Hpr', <- Ho, <- Hr. split; [exact Hq |]. split; [reflexivity |].
      rewrite Hstd. split; [reflexivity |].
      intros Hskip.
      now rewrite (triggerStage_skipped w (withDry false s0) Hskip).
  - (* the prelude ended the process, with status 1 *)
    split; [exact Hp |]. intros H. specialize (Hf c eq_refl). congruence.
  - (* the prelude blocks *)
    split; [exact Hp |]. discriminate.
Qed.

Lemma dry_run_same_output_witness :
  stdout (snd (run sampleWorld (set_dryRun true explicitFlags) []))
  = stdout (snd (run sampleWorld (set_dryRun false explicitFlags) [])).
Proof.
  apply (proj2 (dry_run_same_output sampleWorld explicitFlags [])). reflexivity.
Defined.

(** The dry run of [--tag v2.3.0 --pr 42]: one detail query, then the report
    line and the two-line changelog. *)
Example dry_run_sample :
  run sampleWorld (set_dryRun true explicitFlags) []
  = (Exited 0%Z,
     {| globals := set_targetCommitish "main" (set_dryRun true explicitFlags);
        pending := [] |},
     [GraphQLRun (pullRequestRequest "token" "acme" "widget" 42%Z);
      Stdout ("acme/widget - main:v2.3.0" ++ nl);
      Stdout ("* fix bug @alice" ++ nl ++ "* add test @bob" ++ nl)]).
Proof. reflexivity. Qed.

(** C2, as stated, fails: with the trigger listener configured, the real run
    of [--tag v2.3.0 --pr 42 --kafka-topic releases] succeeds and the dry run
    prints the same bytes without sending anything, but these bytes are not
    the report line followed by the changelog body: the listener's lines come
    first. *)
Lemma dry_run_output_starts_with_trigger_lines :
  let real := run sampleWorld (set_dryRun false triggeredReleaseFlags) [ReadOk "widget v2"] in
  let dry := run sampleWorld (set_dryRun true triggeredReleaseFlags) [ReadOk "widget v2"] in
  fst (fst real) = Exited 0%Z
  /\ published (snd dry) = []
  /\ stdout (snd dry) = stdout (snd real)
  /\ stdout (snd dry)
     = ("Subscribed to releasesand waiting for message" ++ nl
          ++ nl ++ dquote ++ "widget v2" ++ dquote ++ nl
          ++ "widget has been published" ++ nl
          ++ "acme/widget - main:v2.3.0" ++ nl
          ++ "* fix bug @alice" ++ nl ++ "* add test @bob" ++ nl)%string
  /\ stdout (snd dry)
     <> (reportLine (globals (snd (fst dry)))
           ++ buildChangelog (commitsOf sampleRepository))%string.
Proof.
  cbv zeta. repeat split. discriminate.
Qed.

(** ** Runs without a pull request *)

Lemma releaseStage_skipped (w : World) (s : State) :
  (pr (globals s) <= 0)%Z -> releaseStage w s = (Returned tt, s, []).
Proof.
  intros H. rewrite releaseStage_cases.
  apply Z.ltb_ge in H. now rewrite H.
Qed.

(** C10, as the code has it.  When pull-request resolution completes with a
    number that is not positive, the run is over: it sends no detail query
    and no release, ends with status 0, and prints nothing more: standard
    output holds what the trigger listener printed, which is nothing when the
    listener is not configured. *)
Theorem no_pull_request_no_release
  (w : World) (g : Globals) (msgs : list ReadResult) (s1 : State) (t1 : list Event) :
  prelude w {| globals := g; pending := msgs |} = (Returned tt, s1, t1) ->
  (pr (globals s1) <= 0)%Z ->
  run w g msgs = (Returned tt, s1, t1)
  /\ exitStatus (fst (fst (run w g msgs))) = Some 0%Z
  /\ detailQueries (snd (run w g msgs)) = []
  /\ published (snd (run w g msgs)) = []
  /\ stdout (snd (run w g msgs))
     = stdout (snd (triggerStage w {| globals := g; pending := msgs |}))
  /\ (env_KAFKA_BOOTSTRAP_SERVERS w = EmptyString \/ kafkaTopic g = EmptyString ->
      silentSuccess (run w g msgs)).
Proof.
  intros Hpre Hpr.
  assert (Hrun : run w g msgs = (Returned tt, s1, t1)).
  { rewrite run_cases, Hpre, (releaseStage_skipped w s1 Hpr). now rewrite app_nil_r. }
  destruct (prelude_quiet w {| globals := g; pending := msgs |}) as (Hp & Hd & _).
  destruct (prelude_Returned w _ _ _ Hpre) as (Hout & _).
  rewrite Hpre in Hp, Hd. simpl in Hp, Hd.
  rewrite Hrun. simpl. split; [reflexivity |]. split; [reflexivity |].
  split; [exact Hd |]. split; [exact Hp |]. split; [exact Hout |].
  intros Hskip. unfold silentSuccess. simpl.
  rewrite Hout, (triggerStage_skipped w {| globals := g; pending := msgs |} Hskip). auto.
Qed.

Lemma no_pull_request_no_release_witness :
  run sampleWorld triggeredFlags [ReadOk "widget v2"]
  = (Returned tt, {| globals := triggeredFlags; pending := [] |},
     snd (triggerStage sampleWorld
            {| globals := triggeredFlags; pending := [ReadOk "widget v2"] |})).
Proof.
  apply (no_pull_request_no_release sampleWorld triggeredFlags [ReadOk "widget v2"]).
  - reflexivity.
  - simpl. lia.
Defined.

(** C10, as stated, fails: with the trigger listener configured and
    [--pr -1], resolution completes with a number that is not positive and the
    process ends with status 0, but standard output is not empty: it holds the
    listener's lines. *)
Lemma no_pull_request_run_prints_trigger_lines :
  (exists s1 t1,
     prelude sampleWorld {| globals := triggeredFlags; pending := [ReadOk "widget v2"] |}
     = (Returned tt, s1, t1)
     /\ (pr (globals s1) <= 0)%Z)
  /\ exitStatus (fst (fst (run sampleWorld triggeredFlags [ReadOk "widget v2"]))) = Some 0%Z
  /\ stdout (snd (run sampleWorld triggeredFlags [ReadOk "widget v2"]))
     = ("Subscribed to releasesand waiting for message" ++ nl
          ++ nl ++ dquote ++ "widget v2" ++ dquote ++ nl
          ++ "widget has been published" ++ nl)%string
  /\ ~ silentSuccess (run sampleWorld triggeredFlags [ReadOk "widget v2"]).
Proof.
  split; [| split; [| split]].
  - eexists _, _. split; [reflexivity | simpl; lia].
  - reflexivity.
  - reflexivity.
  - intros (_ & _ & H & _). discriminate H.
Qed.

(** The two ways to a number that is not positive: the lookup finds no pull
    request, or a negative number is given. *)
Example no_pull_request_found :
  run noPullRequestWorld (set_tag "v2.3.0" sampleFlags) []
  = (Returned tt, {| globals := set_tag "v2.3.0" sampleFlags; pending := [] |},
     [CommitPullsGet (commitPullsRequest "token" "acme" "widget" "master")]).
Proof. reflexivity. Qed.

Example negative_pull_request_given :
  run noPullRequestWorld (set_pr (-7) (set_tag "v2.3.0" sampleFlags)) []
  = (Returned tt,
     {| globals := set_pr (-7) (set_tag "v2.3.0" sampleFlags); pending := [] |}, []).
Proof. reflexivity. Qed.

(** ** The release tag of a run *)

(** C4.  With no tag given (and a repository named), once the package name
    and the registry's document are obtained, the tag is exactly ["v"]
    followed by the document's [dist-tags.latest] string, whatever that string
    is: nothing is parsed, checked or stripped; the requests made are the
    [package.json] query and the registry lookup, in this order.  And every
    release sent by a run started without a tag is tagged and named ["v"]
    followed by the latest version the registry gave for the package. *)
Theorem resolveTag_v_prefix (w : World) :
  (forall s name version,
     tag (globals s) = EmptyString ->
     repo (globals s) <> EmptyString ->
     packageNamed w (env_TOKEN w) (owner (globals s)) (repo (globals s)) name ->
     registryLatest w (registry (globals s)) name version ->
     resolveTag w s
     = (Returned tt,
        {| globals := set_tag ("v" ++ version) (globals s); pending := pending s |},
        [GraphQLRun (packageJsonRequest (env_TOKEN w) (owner (globals s))
                       (repo (globals s)));
         RegistryGet (registryRequest (registry (globals s)) name)])
     /\ tag (globals (snd (fst (resolveTag w s)))) = String "v" version)
  /\ (forall g msgs release,
        tag g = EmptyString ->
        In release (published (snd (run w g msgs))) ->
        exists name version,
          packageNamed w (env_TOKEN w) (owner g) (repo g) name
          /\ registryLatest w (registry g) name version
          /\ Release.TagName release = String "v" version
          /\ Release.Name release = String "v" version).
Proof.
  split.
  - intros s name version Htag Hrepo Hname Hlatest.
    rewrite (resolveTag_resolved w s name version Htag Hrepo Hname Hlatest).
    split; reflexivity.
  - intros g msgs release Htag Hin. apply run_published in Hin.
    destruct Hin as (s1 & t1 & respData & Hpre & _ & _ & _ & _ & _ & ->).
    apply prelude_Returned in Hpre. destruct Hpre as (_ & _ & Hnew).
    destruct (Hnew Htag) as (name & version & Hname & Hlatest & Htag1).
    exists name, version. unfold releaseOf. simpl.
    destruct (defaultTarget_keeps (QueryResponse.Repository respData) s1)
      as (_ & _ & -> & _).
    rewrite Htag1. auto.
Qed.

Lemma resolveTag_v_prefix_witness :
  tag (globals (snd (fst (resolveTag sampleWorld sampleState)))) = "v2.3.0"%string.
Proof.
  apply (proj1 (resolveTag_v_prefix sampleWorld) sampleState "widget" "2.3.0").
  - reflexivity.
  - discriminate.
  - exists {| QueryResponse.Repository := sampleRepository |},
           {| PackageJson.Name := "widget" |}.
    repeat split.
  - exists {| Response.StatusCode := 200%Z; Response.Body := inr "body" |}, "body"%string,
           {| RegistryResponse.DistTags := {| DistTags.Latest := "2.3.0" |} |}.
    repeat split.
Defined.

(** The whole run for [acme/widget] with nothing but the required flags:
    the registry's 2.3.0 becomes the tag v2.3.0 of the release sent. *)
Example run_sample_tag :
  published (snd (run sampleWorld sampleFlags [])) = [sampleRelease].
Proof. reflexivity. Qed.

(** ** The commit limit *)

Lemma Forall_firstn {A} (P : A -> Prop) (n : nat) (l : list A) :
  Forall P l -> Forall P (firstn n l).
Proof.
  intros H; revert n; induction H as [|x l Hx _ IH]; intros [|n]; simpl; auto.
Qed.

Lemma queryCommitLimit_PullRequestQuery : queryCommitLimit PullRequestQuery = Some 50.
Proof. vm_compute. reflexivity. Qed.

Lemma getRepositoryPullRequest_answer
  (w : World) (githubToken owner repo : string) (pr : Z) (s : State)
  (respData : QueryResponse.t) :
  graphql_Run w (pullRequestRequest githubToken owner repo pr) = inr respData ->
  getRepositoryPullRequest w githubToken owner repo pr s
  = (Returned (QueryResponse.Repository respData, None), s,
     [GraphQLRun (pullRequestRequest githubToken owner repo pr)]).
Proof.
  intros H. unfold getRepositoryPullRequest. run_monad. now rewrite H.
Qed.

(** C9.  The detail query asks for [commits(first: 50)].  With a service that
    honours this argument, the fetch returns the first 50 of the pull
    request's commits and no error, however many commits there are; the
    changelog built from them has one line per fetched commit, hence at most
    50 lines, and exactly 50 when the pull request has more; and a dry run
    over such a pull request ends with status 0, its output being the report
    line and that body. *)
Theorem changelog_at_most_50_lines
  (w : World) (s : State) (respData : QueryResponse.t) (allCommits : list CommitNodes.t) :
  let query := pullRequestRequest (env_TOKEN w) (owner (globals s)) (repo (globals s))
                 (pr (globals s)) in
  let body := buildChangelog (firstn 50 allCommits) in
  graphql_Run w query = inr respData ->
  honoursCommitLimit query respData allCommits ->
  queryCommitLimit (GraphQLRequest.Query query) = Some 50
  /\ getRepositoryPullRequest w (env_TOKEN w) (owner (globals s)) (repo (globals s))
       (pr (globals s)) s
     = (Returned (QueryResponse.Repository respData, None), s, [GraphQLRun query])
  /\ commitsOf (QueryResponse.Repository respData) = firstn 50 allCommits
  /\ body = flatten (map changelogLine (firstn 50 allCommits))
  /\ List.length (map changelogLine (firstn 50 allCommits)) <= 50
  /\ (50 < List.length allCommits ->
      List.length (map changelogLine (firstn 50 allCommits)) = 50)
  /\ (Forall singleLine allCommits -> newlines body <= 50)
  /\ ((0 < pr (globals s))%Z ->
      tag (globals s) <> EmptyString ->
      dryRun (globals s) = true ->
      exists s',
        releaseStage w s
        = (Exited 0%Z, s', [GraphQLRun query; Stdout (reportLine (globals s')); Stdout body])).
Proof.
  cbv zeta. intros Hq (limit & Hlimit & Hcommits).
  change (GraphQLRequest.Query (pullRequestRequest _ _ _ _)) with PullRequestQuery in *.
  rewrite queryCommitLimit_PullRequestQuery in Hlimit. inversion Hlimit; subst limit.
  split; [apply queryCommitLimit_PullRequestQuery |].
  split; [now apply getRepositoryPullRequest_answer |].
  split; [exact Hcommits |].
  split; [apply buildChangelog_flatten |].
  split; [rewrite length_map; apply firstn_le_length |].
  split; [intros Hlen; rewrite length_map, length_firstn; lia |].
  split.
  - intros Hall. rewrite newlines_buildChangelog.
    + apply firstn_le_length.
    + now apply Forall_firstn.
  - intros Hpr Htag Hdry. eexists.
    rewrite (releaseStage_dry w s respData Hdry Hpr Hq Htag), Hcommits. reflexivity.
Qed.

Lemma changelog_at_most_50_lines_witness :
  List.length (map changelogLine (firstn 50 sixtyCommits)) = 50.
Proof.
  apply (changelog_at_most_50_lines cappedWorld
           (withDry true explicitState)
           {| QueryResponse.Repository := cappedRepository |} sixtyCommits).
  - reflexivity.
  - exists 50. split; [apply queryCommitLimit_PullRequestQuery | reflexivity].
  - vm_compute. lia.
Defined.

(** * Further properties of the program *)

(** ** Counting events, block by block *)

Lemma count_app (p : Event -> bool) (t1 t2 : list Event) :
  count p (t1 ++ t2) = count p t1 + count p t2.
Proof. unfold count. now rewrite filter_app, length_app. Qed.

Lemma count_none (p : Event -> bool) (t : list Event) :
  Forall (fun e => p e = false) t -> count p t = 0.
Proof.
  unfold count. induction 1 as [|e t He _ IH]; simpl; [reflexivity |].
  now rewrite He.
Qed.

Lemma preserves_bind (P : Globals -> Prop) (m k : M unit) :
  preserves P m -> preserves P k -> preserves P (m ;; k).
Proof.
  intros Hm Hk s HP a s' t H. apply bind_Returned in H.
  destruct H as (a1 & s1 & t1 & t2 & H1 & H2 & _).
  eapply Hk; [eapply Hm; eassumption | eassumption].
Qed.

Lemma bounded_bind (P : Globals -> Prop) (p : Event -> bool) (a b : nat) (m k : M unit) :
  preserves P m -> bounded P p a m -> bounded P p b k -> bounded P p (a + b) (m ;; k).
Proof.
  intros Hpre Hm Hk s HP. specialize (Hm s HP). specialize (Hpre s HP). unfold bind.
  destruct (m s) as [[[[]|c|] s1] t1]; simpl in *; try lia.
  specialize (Hk s1 (Hpre tt s1 t1 eq_refl)).
  destruct (k s1) as [[o s2] t2]; simpl in *. rewrite count_app. lia.
Qed.

Lemma terminates_bind (P : Globals -> Prop) (m k : M unit) :
  preserves P m -> terminates P m -> terminates P k -> terminates P (m ;; k).
Proof.
  intros Hpre Hm Hk s HP. specialize (Hm s HP). specialize (Hpre s HP). unfold bind.
  destruct (m s) as [[[[]|c|] s1] t1]; simpl in *; try congruence.
  specialize (Hk s1 (Hpre tt s1 t1 eq_refl)).
  destruct (k s1) as [[o s2] t2]; simpl in *. exact Hk.
Qed.

Lemma readLoop_local (w : World) (repo : string) (msgs : list ReadResult) (s : State) :
  Forall (fun e => (isStdout e || isStderr e || isUsage e || isKafka e)%bool = true)
    (snd (readLoop w repo msgs s)).
Proof.
  revert s; induction msgs as [|r msgs IH]; intros s; simpl.
  - constructor.
  - set (s1 := {| globals := globals s; pending := msgs |}).
    specialize (IH s1). destruct (readLoop w repo msgs s1) as [[o s2] t]. simpl in IH.
    destruct r as [value|e]; [destruct (strings.Contains value repo) |]; simpl;
      repeat constructor; assumption.
Qed.

(** The first two blocks of [main] emit only local output and Kafka traffic. *)
Lemma checkFlags_local (s : State) :
  Forall (fun e => (isStdout e || isStderr e || isUsage e || isKafka e)%bool = true)
    (snd (checkFlags s)).
Proof.
  rewrite checkFlags_cases.
  destruct (len (repo (globals s)) =? 0)%nat; [repeat constructor |].
  destruct (len (owner (globals s)) =? 0)%nat; [repeat constructor |].
  destruct (len (registry (globals s)) =? 0)%nat; repeat constructor.
Qed.

Lemma triggerStage_local (w : World) (s : State) :
  Forall (fun e => (isStdout e || isStderr e || isUsage e || isKafka e)%bool = true)
    (snd (triggerStage w s)).
Proof.
  rewrite triggerStage_cases.
  destruct (_ && _)%bool; [| constructor].
  destruct (kafka_NewConsumer w (env_KAFKA_BOOTSTRAP_SERVERS w)); [repeat constructor |].
  pose proof (readLoop_local w (repo (globals s)) (pending s) s) as H.
  destruct (readLoop w (repo (globals s)) (pending s) s) as [[[[]|c|] s1] t];
    cbv zeta; simpl in H |- *; repeat constructor;
    rewrite ?Forall_app; repeat constructor; assumption.
Qed.

Lemma remote_count (p : Event -> bool) (t : list Event) :
  remote p ->
  Forall (fun e => (isStdout e || isStderr e || isUsage e || isKafka e)%bool = true) t ->
  count p t = 0.
Proof.
  intros Hp Ht. apply count_none. revert Ht. apply Forall_impl. exact Hp.
Qed.

Lemma checkFlags_bounded (P : Globals -> Prop) (p : Event -> bool) :
  remote p -> bounded P p 0 checkFlags.
Proof. intros Hp s _. rewrite (remote_count p _ Hp (checkFlags_local s)). lia. Qed.

Lemma triggerStage_bounded (w : World) (P : Globals -> Prop) (p : Event -> bool) :
  remote p -> bounded P p 0 (triggerStage w).
Proof. intros Hp s _. rewrite (remote_count p _ Hp (triggerStage_local w s)). lia. Qed.

Lemma checkFlags_preserves (P : Globals -> Prop) : preserves P checkFlags.
Proof.
  intros s HP [] s' t H. apply checkFlags_Returned in H. now destruct H as (-> & _).
Qed.

Lemma triggerStage_preserves (w : World) (P : Globals -> Prop) : preserves P (triggerStage w).
Proof.
  intros s HP a s' t H. pose proof (triggerStage_globals w s) as Hg.
  rewrite H in Hg. simpl in Hg. now rewrite Hg.
Qed.

Lemma releaseStage_preserves (w : World) (P : Globals -> Prop) : preserves P (releaseStage w).
Proof.
  intros s HP a s' t. rewrite releaseStage_cases.
  destruct (0 <? pr (globals s))%Z; [| intros H; inversion H; now subst].
  cbv zeta. destruct (graphql_Run w _); [discriminate |].
  destruct (String.eqb (tag (globals s)) EmptyString); [discriminate |].
  destruct (dryRun _); [discriminate |].
  destruct (json_Marshal_Release w _); [discriminate |].
  destruct (http_NewRequest w _ _); [discriminate |].
  destruct (http_Do w _); discriminate.
Qed.

Lemma queries_differ' : String.eqb PullRequestQuery NpmPackageJsonQuery = false.
Proof. rewrite String.eqb_sym. apply queries_differ. Qed.

(** Evaluates the counts of event classes over an explicit trace. *)
Ltac tally :=
  repeat (cbn [fst snd count filter List.length app
               isStdout isStderr isUsage isKafka isNetwork isRegistryGet isCommitPullsGet
               isReleasePost isPackageQuery isDetailQuery isVersionLookup orb
               GraphQLRequest.Query packageJsonRequest pullRequestRequest];
          rewrite ?String.eqb_refl, ?queries_differ, ?queries_differ').

Lemma resolveTag_tally (w : World) (s : State) :
  count isPackageQuery (snd (resolveTag w s)) <= 1
  /\ count isRegistryGet (snd (resolveTag w s)) <= 1
  /\ count isCommitPullsGet (snd (resolveTag w s)) = 0
  /\ count isDetailQuery (snd (resolveTag w s)) = 0
  /\ count isReleasePost (snd (resolveTag w s)) = 0
  /\ count isKafka (snd (resolveTag w s)) = 0.
Proof.
  unfold resolveTag, getNpmPackageName, getLatestVersion.
  split_cases; tally; repeat split; lia.
Qed.

Lemma resolvePR_tally (w : World) (s : State) :
  count isCommitPullsGet (snd (resolvePR w s)) <= 1
  /\ count isVersionLookup (snd (resolvePR w s)) = 0
  /\ count isPackageQuery (snd (resolvePR w s)) = 0
  /\ count isRegistryGet (snd (resolvePR w s)) = 0
  /\ count isDetailQuery (snd (resolvePR w s)) = 0
  /\ count isReleasePost (snd (resolvePR w s)) = 0
  /\ count isKafka (snd (resolvePR w s)) = 0.
Proof.
  unfold resolvePR, getPullRequestNumber.
  split_cases; tally; repeat split; lia.
Qed.

Lemma releaseStage_tally (w : World) (s : State) :
  count isDetailQuery (snd (releaseStage w s)) <= 1
  /\ count isReleasePost (snd (releaseStage w s)) <= 1
  /\ count isVersionLookup (snd (releaseStage w s)) = 0
  /\ count isPackageQuery (snd (releaseStage w s)) = 0
  /\ count isRegistryGet (snd (releaseStage w s)) = 0
  /\ count isCommitPullsGet (snd (releaseStage w s)) = 0
  /\ count isKafka (snd (releaseStage w s)) = 0.
Proof.
  rewrite releaseStage_cases.
  destruct (0 <? pr (globals s))%Z; [| tally; repeat split; lia].
  cbv zeta. destruct (graphql_Run w _); [tally; repeat split; lia |].
  destruct (String.eqb (tag (globals s)) EmptyString); [tally; repeat split; lia |].
  destruct (dryRun _); [tally; repeat split; lia |].
  destruct (json_Marshal_Release w _); [tally; repeat split; lia |].
  destruct (http_NewRequest w _ _); [tally; repeat split; lia |].
  destruct (http_Do w _); tally; repeat split; lia.
Qed.

Lemma resolveTag_keeps_pr (w : World) (s : State) :
  pr (globals (snd (fst (resolveTag w s)))) = pr (globals s).
Proof.
  unfold resolveTag, getNpmPackageName, getLatestVersion. split_cases; reflexivity.
Qed.

Lemma remote_classes :
  remote isNetwork /\ remote isRegistryGet /\ remote isCommitPullsGet
  /\ remote isReleasePost /\ remote isPackageQuery /\ remote isDetailQuery
  /\ remote isVersionLookup.
Proof. repeat split; intros [] H; try reflexivity; discriminate H. Qed.

(** The bound of a whole run from the bounds of the five blocks. *)
Lemma main_bounded (w : World) (P : Globals -> Prop) (p : Event -> bool) (a b c d e : nat) :
  preserves P (resolveTag w) ->
  preserves P (resolvePR w) ->
  bounded P p a checkFlags ->
  bounded P p b (triggerStage w) ->
  bounded P p c (resolveTag w) ->
  bounded P p d (resolvePR w) ->
  bounded P p e (releaseStage w) ->
  bounded P p (a + (b + (c + (d + e)))) (main w).
Proof.
  intros Ht Hp Ba Bb Bc Bd Be. unfold main.
  apply bounded_bind; [apply checkFlags_preserves | exact Ba |].
  apply bounded_bind; [apply triggerStage_preserves | exact Bb |].
  apply bounded_bind; [exact Ht | exact Bc |].
  apply bounded_bind; [exact Hp | exact Bd | exact Be].
Qed.

Lemma main_bounded_remote (w : World) (P : Globals -> Prop) (p : Event -> bool) (c d e : nat) :
  remote p ->
  preserves P (resolveTag w) ->
  preserves P (resolvePR w) ->
  bounded P p c (resolveTag w) ->
  bounded P p d (resolvePR w) ->
  bounded P p e (releaseStage w) ->
  bounded P p (c + (d + e)) (main w).
Proof.
  intros Hr Ht Hp Bc Bd Be.
  apply (main_bounded w P p 0 0 c d e); auto using checkFlags_bounded, triggerStage_bounded.
Qed.

Lemma preserves_True (m : M unit) : preserves (fun _ => True) m.
Proof. intros s _ a s' t _. exact I. Qed.

(** X1.  A run sends each of its requests at most once: the [package.json]
    query, the registry lookup, the commit-to-pull-request lookup, the detail
    query and the release.  Nothing is retried, whatever the answers. *)
Theorem run_sends_each_request_at_most_once
  (w : World) (g : Globals) (msgs : list ReadResult) :
  count isPackageQuery (snd (run w g msgs)) <= 1
  /\ count isRegistryGet (snd (run w g msgs)) <= 1
  /\ count isCommitPullsGet (snd (run w g msgs)) <= 1
  /\ count isDetailQuery (snd (run w g msgs)) <= 1
  /\ count isReleasePost (snd (run w g msgs)) <= 1.
Proof.
  destruct remote_classes as (_ & Hreg & Hpulls & Hpost & Hpkg & Hdetail & _).
  unfold run. set (s := {| globals := g; pending := msgs |}).
  repeat split.
  - apply (main_bounded_remote w (fun _ => True) isPackageQuery 1 0 0);
      auto using preserves_True; intros s' _.
    + apply resolveTag_tally.
    + now rewrite (proj1 (proj2 (proj2 (resolvePR_tally w s')))).
    + now rewrite (proj1 (proj2 (proj2 (proj2 (releaseStage_tally w s'))))).
  - apply (main_bounded_remote w (fun _ => True) isRegistryGet 1 0 0);
      auto using preserves_True; intros s' _.
    + apply resolveTag_tally.
    + destruct (resolvePR_tally w s') as (_ & _ & _ & -> & _). lia.
    + destruct (releaseStage_tally w s') as (_ & _ & _ & _ & -> & _). lia.
  - apply (main_bounded_remote w (fun _ => True) isCommitPullsGet 0 1 0);
      auto using preserves_True; intros s' _.
    + destruct (resolveTag_tally w s') as (_ & _ & -> & _). lia.
    + apply resolvePR_tally.
    + destruct (releaseStage_tally w s') as (_ & _ & _ & _ & _ & -> & _). lia.
  - apply (main_bounded_remote w (fun _ => True) isDetailQuery 0 0 1);
      auto using preserves_True; intros s' _.
    + destruct (resolveTag_tally w s') as (_ & _ & _ & -> & _). lia.
    + destruct (resolvePR_tally w s') as (_ & _ & _ & _ & -> & _). lia.
    + apply releaseStage_tally.
  - apply (main_bounded_remote w (fun _ => True) isReleasePost 0 0 1);
      auto using preserves_True; intros s' _.
    + destruct (resolveTag_tally w s') as (_ & _ & _ & _ & -> & _). lia.
    + destruct (resolvePR_tally w s') as (_ & _ & _ & _ & _ & -> & _). lia.
    + apply releaseStage_tally.
Qed.

(** ** Stages that are skipped *)

Lemma resolveTag_preserves_tag (w : World) :
  preserves (fun g => tag g <> EmptyString) (resolveTag w).
Proof.
  intros s HP a s' t H. rewrite (resolveTag_explicit w s HP) in H.
  inversion H; subst. exact HP.
Qed.

Lemma resolvePR_preserves_tag (w : World) (P : string -> Prop) :
  preserves (fun g => P (tag g)) (resolvePR w).
Proof.
  intros s HP a s' t H. destruct (resolvePR_tag w s) as [Ht _].
  rewrite H in Ht. simpl in Ht. now rewrite Ht.
Qed.

(** X2.  With a tag given, version resolution is skipped altogether: the run
    sends neither the [package.json] query nor the registry lookup, and every
    release it sends is tagged and named with the given tag, unchanged. *)
Theorem explicit_tag_skips_version_resolution
  (w : World) (g : Globals) (msgs : list ReadResult) :
  tag g <> EmptyString ->
  count isVersionLookup (snd (run w g msgs)) = 0
  /\ (forall release,
        In release (published (snd (run w g msgs))) ->
        Release.TagName release = tag g /\ Release.Name release = tag g).
Proof.
  intros Htag. split.
  - destruct remote_classes as (_ & _ & _ & _ & _ & _ & Hr).
    assert (H : bounded (fun g => tag g <> EmptyString) isVersionLookup 0 (main w)).
    { apply (main_bounded_remote w _ isVersionLookup 0 0 0 Hr).
      - apply resolveTag_preserves_tag.
      - apply (resolvePR_preserves_tag w (fun x => x <> EmptyString)).
      - intros s HP. now rewrite (resolveTag_explicit w s HP).
      - intros s _. destruct (resolvePR_tally w s) as (_ & -> & _). lia.
      - intros s _. destruct (releaseStage_tally w s) as (_ & _ & -> & _). lia. }
    specialize (H {| globals := g; pending := msgs |} Htag). unfold run. lia.
  - intros release Hin. apply run_published in Hin.
    destruct Hin as (s1 & t1 & respData & Hpre & _ & _ & _ & _ & _ & ->).
    apply prelude_Returned in Hpre. destruct Hpre as (_ & Hkeep & _).
    unfold releaseOf. simpl.
    destruct (defaultTarget_keeps (QueryResponse.Repository respData) s1)
      as (_ & _ & -> & _).
    simpl in Hkeep. rewrite (Hkeep Htag). auto.
Qed.

Lemma explicit_tag_skips_version_resolution_witness :
  count isVersionLookup (snd (run sampleWorld explicitFlags [])) = 0.
Proof.
  apply (explicit_tag_skips_version_resolution sampleWorld explicitFlags []).
  discriminate.
Defined.

Lemma releaseStage_detailQueries (w : World) (s : State) :
  detailQueries (snd (releaseStage w s)) = []
  \/ detailQueries (snd (releaseStage w s))
     = [pullRequestRequest (env_TOKEN w) (owner (globals s)) (repo (globals s))
          (pr (globals s))].
Proof.
  rewrite releaseStage_cases.
  destruct (0 <? pr (globals s))%Z; [| now left].
  right. cbv zeta. destruct (graphql_Run w _); [observe; now rewrite String.eqb_refl |].
  destruct (String.eqb (tag (globals s)) EmptyString);
    [observe; now rewrite String.eqb_refl |].
  destruct (dryRun _); [observe; now rewrite String.eqb_refl |].
  destruct (json_Marshal_Release w _); [observe; now rewrite String.eqb_refl |].
  destruct (http_NewRequest w _ _); [observe; now rewrite String.eqb_refl |].
  destruct (http_Do w _); observe; now rewrite String.eqb_refl.
Qed.

Lemma prelude_preserves (w : World) (P : Globals -> Prop) :
  preserves P (resolveTag w) -> preserves P (resolvePR w) -> preserves P (prelude w).
Proof.
  intros Ht Hp. unfold prelude.
  auto using preserves_bind, checkFlags_preserves, triggerStage_preserves.
Qed.

(** X3.  With a pull-request number given (any number but 0), the
    commit-to-pull-request lookup is skipped altogether, and the only detail
    query the run can send asks for that very number. *)
Theorem explicit_pr_skips_lookup
  (w : World) (g : Globals) (msgs : list ReadResult) :
  pr g <> 0%Z ->
  count isCommitPullsGet (snd (run w g msgs)) = 0
  /\ (detailQueries (snd (run w g msgs)) = []
      \/ detailQueries (snd (run w g msgs))
         = [pullRequestRequest (env_TOKEN w) (owner g) (repo g) (pr g)]).
Proof.
  intros Hpr.
  set (P := fun g' : Globals =>
              pr g' = pr g /\ owner g' = owner g /\ repo g' = repo g).
  assert (Htag : preserves P (resolveTag w)).
  { intros s (H1 & H2 & H3) a s' t H.
    pose proof (resolveTag_keeps_pr w s) as Hk.
    destruct (resolveTag_quiet w s) as (_ & _ & Ho & Hr & _).
    rewrite H in Hk, Ho, Hr. simpl in Hk, Ho, Hr. unfold P. now rewrite Hk, Ho, Hr. }
  assert (Hlook : preserves P (resolvePR w)).
  { intros s (H1 & H2 & H3) a s' t H.
    rewrite (resolvePR_explicit w s) in H by congruence.
    inversion H; subst. now split. }
  split.
  - destruct remote_classes as (_ & _ & Hr & _).
    assert (H : bounded P isCommitPullsGet 0 (main w)).
    { apply (main_bounded_remote w P isCommitPullsGet 0 0 0 Hr Htag Hlook).
      - intros s _. destruct (resolveTag_tally w s) as (_ & _ & -> & _). lia.
      - intros s (H1 & _). rewrite (resolvePR_explicit w s) by congruence. tally. lia.
      - intros s _. destruct (releaseStage_tally w s) as (_ & _ & _ & _ & _ & -> & _). lia. }
    assert (HP : P g) by (now split).
    specialize (H {| globals := g; pending := msgs |} HP). unfold run. lia.
  - rewrite run_cases.
    destruct (prelude_quiet w {| globals := g; pending := msgs |}) as (_ & Hd & _).
    pose proof (prelude_preserves w P Htag Hlook {| globals := g; pending := msgs |}) as Hpre.
    destruct (prelude w {| globals := g; pending := msgs |}) as [[[[]|c|] s1] t1];
      simpl in Hd; try (left; exact Hd).
    assert (HP : P g) by (now split).
    destruct (Hpre HP tt s1 t1 eq_refl) as (H1 & H2 & H3).
    pose proof (releaseStage_detailQueries w s1) as Hq.
    destruct (releaseStage w s1) as [[o s2] t2]. simpl in *.
    rewrite detailQueries_app, Hd, H1, H2, H3 in *. exact Hq.
Qed.

Lemma explicit_pr_skips_lookup_witness :
  count isCommitPullsGet (snd (run sampleWorld explicitFlags [])) = 0.
Proof.
  apply (explicit_pr_skips_lookup sampleWorld explicitFlags []). discriminate.
Defined.

(** ** The trigger stage in a run *)

Lemma checkFlags_no_kafka (s : State) : count isKafka (snd (checkFlags s)) = 0.
Proof.
  rewrite checkFlags_cases.
  destruct (len (repo (globals s)) =? 0)%nat; [reflexivity |].
  destruct (len (owner (globals s)) =? 0)%nat; [reflexivity |].
  destruct (len (registry (globals s)) =? 0)%nat; reflexivity.
Qed.

Lemma stage_terminates (w : World) (s : State) :
  fst (fst (checkFlags s)) <> Blocked
  /\ fst (fst (resolveTag w s)) <> Blocked
  /\ fst (fst (resolvePR w s)) <> Blocked
  /\ fst (fst (releaseStage w s)) <> Blocked.
Proof.
  repeat split.
  - unfold checkFlags. split_cases; discriminate.
  - unfold resolveTag, getNpmPackageName, getLatestVersion. split_cases; discriminate.
  - unfold resolvePR, getPullRequestNumber. split_cases; discriminate.
  - rewrite releaseStage_cases.
    destruct (0 <? pr (globals s))%Z; [| discriminate].
    cbv zeta. destruct (graphql_Run w _); [discriminate |].
    destruct (String.eqb (tag (globals s)) EmptyString); [discriminate |].
    destruct (dryRun _); [discriminate |].
    destruct (json_Marshal_Release w _); [discriminate |].
    destruct (http_NewRequest w _ _); [discriminate |].
    destruct (http_Do w _); discriminate.
Qed.

Lemma keeps_preserves_topic (w : World) (m : M unit) :
  quiet m ->
  preserves (fun g => env_KAFKA_BOOTSTRAP_SERVERS w = EmptyString
                      \/ kafkaTopic g = EmptyString) m.
Proof.
  intros Hq s HP a s' t H. destruct (Hq s) as (_ & _ & Hk). rewrite H in Hk. simpl in Hk.
  destruct Hk as (_ & _ & _ & _ & _ & _ & Ht). now rewrite Ht.
Qed.

(** X4.  Without a broker address or without a topic the trigger stage is
    skipped: the run makes no use of the Kafka consumer at all (no subscribe,
    no read, no close), and it cannot wait forever: it ends. *)
Theorem no_trigger_no_kafka
  (w : World) (g : Globals) (msgs : list ReadResult) :
  env_KAFKA_BOOTSTRAP_SERVERS w = EmptyString \/ kafkaTopic g = EmptyString ->
  count isKafka (snd (run w g msgs)) = 0
  /\ fst (fst (run w g msgs)) <> Blocked
  /\ exists status, exitStatus (fst (fst (run w g msgs))) = Some status.
Proof.
  intros Hskip.
  set (P := fun g' : Globals =>
              env_KAFKA_BOOTSTRAP_SERVERS w = EmptyString \/ kafkaTopic g' = EmptyString).
  assert (Ht : preserves P (resolveTag w))
    by (apply keeps_preserves_topic, resolveTag_quiet).
  assert (Hp : preserves P (resolvePR w))
    by (apply keeps_preserves_topic, resolvePR_quiet).
  assert (Hcount : count isKafka (snd (run w g msgs)) = 0).
  { assert (H : bounded P isKafka 0 (main w)).
    { apply (main_bounded w P isKafka 0 0 0 0 0 Ht Hp).
      - intros s _. now rewrite checkFlags_no_kafka.
      - intros s HP. now rewrite (triggerStage_skipped w s HP).
      - intros s _. destruct (resolveTag_tally w s) as (_ & _ & _ & _ & _ & ->). lia.
      - intros s _. destruct (resolvePR_tally w s) as (_ & _ & _ & _ & _ & _ & ->). lia.
      - intros s _. destruct (releaseStage_tally w s) as (_ & _ & _ & _ & _ & _ & ->). lia. }
    specialize (H {| globals := g; pending := msgs |} Hskip). unfold run. lia. }
  assert (Hend : fst (fst (run w g msgs)) <> Blocked).
  { assert (H : terminates P (main w)).
    { unfold main.
      apply terminates_bind; [apply checkFlags_preserves | |].
      { intros s _. apply (stage_terminates w s). }
      apply terminates_bind; [apply triggerStage_preserves | |].
      { intros s HP. rewrite (triggerStage_skipped w s HP). discriminate. }
      apply terminates_bind; [exact Ht | |].
      { intros s _. apply (stage_terminates w s). }
      apply terminates_bind; [exact Hp | |].
      { intros s _. apply (stage_terminates w s). }
      intros s _. apply (stage_terminates w s). }
    exact (H {| globals := g; pending := msgs |} Hskip). }
  split; [exact Hcount |]. split; [exact Hend |].
  destruct (fst (fst (run w g msgs))) as [[]|c|]; simpl; eauto. now elim Hend.
Qed.

Lemma no_trigger_no_kafka_witness :
  count isKafka (snd (run sampleWorld sampleFlags [ReadOk "widget v2"])) = 0.
Proof.
  apply (no_trigger_no_kafka sampleWorld sampleFlags [ReadOk "widget v2"]).
  right. reflexivity.
Defined.

(** X5.  With the trigger configured, a consumer that cannot be created is
    fatal: the error is logged, the process ends with status 1, and nothing
    else has happened: no subscription, no read, no request. *)
Theorem consumer_failure_is_fatal
  (w : World) (g : Globals) (msgs : list ReadResult) (e : error) :
  repo g <> EmptyString -> owner g <> EmptyString -> registry g <> EmptyString ->
  env_KAFKA_BOOTSTRAP_SERVERS w <> EmptyString -> kafkaTopic g <> EmptyString ->
  kafka_NewConsumer w (env_KAFKA_BOOTSTRAP_SERVERS w) = Some e ->
  run w g msgs = (Exited 1%Z, {| globals := g; pending := msgs |}, [Stderr e]).
Proof.
  intros Hr Ho Hg Hb Ht Hnew.
  apply len_nonzero in Hr, Ho, Hg, Hb, Ht.
  unfold run, main, bind. rewrite checkFlags_cases. cbn [globals]. rewrite Hr, Ho, Hg.
  rewrite triggerStage_cases. cbn [globals].
  assert (H0 : forall x, (len x =? 0)%nat = false -> (0 <? len x)%nat = true).
  { intros x H. apply Nat.eqb_neq in H. apply Nat.ltb_lt. lia. }
  rewrite (H0 _ Hb), (H0 _ Ht), Hnew. reflexivity.
Qed.

Lemma consumer_failure_is_fatal_witness :
  run brokerDownWorld triggeredReleaseFlags [ReadOk "widget v2"]
  = (Exited 1%Z, {| globals := triggeredReleaseFlags; pending := [ReadOk "widget v2"] |},
     [Stderr "no such host"]).
Proof.
  apply (consumer_failure_is_fatal brokerDownWorld triggeredReleaseFlags
           [ReadOk "widget v2"] "no such host"); try discriminate.
  reflexivity.
Defined.

(** X6.  With the trigger configured and no delivery that names the
    repository, the process waits forever: it has subscribed, printed the
    subscription line and read every delivery, and it has sent no request at
    all and printed nothing else. *)
Theorem run_waits_for_signal
  (w : World) (g : Globals) (msgs : list ReadResult) :
  repo g <> EmptyString -> owner g <> EmptyString -> registry g <> EmptyString ->
  env_KAFKA_BOOTSTRAP_SERVERS w <> EmptyString -> kafkaTopic g <> EmptyString ->
  kafka_NewConsumer w (env_KAFKA_BOOTSTRAP_SERVERS w) = None ->
  Forall (notSignal (repo g)) msgs ->
  run w g msgs
  = (Blocked, {| globals := g; pending := [] |},
     [KafkaSubscribe (kafkaTopic g);
      Stdout (("Subscribed to " ++ kafkaTopic g ++ "and waiting for message") ++ nl)]
       ++ map KafkaRead msgs)
  /\ count isNetwork (snd (run w g msgs)) = 0
  /\ exitStatus (fst (fst (run w g msgs))) = None.
Proof.
  intros Hr Ho Hg Hb Ht Hnew Hmsgs.
  assert (Hrun : run w g msgs
                 = (Blocked, {| globals := g; pending := [] |},
                    [KafkaSubscribe (kafkaTopic g);
                     Stdout (("Subscribed to " ++ kafkaTopic g
                                ++ "and waiting for message") ++ nl)]
                      ++ map KafkaRead msgs)).
  { apply len_nonzero in Hr, Ho, Hg, Hb, Ht.
    unfold run, main, bind. rewrite checkFlags_cases. cbn [globals]. rewrite Hr, Ho, Hg.
    rewrite triggerStage_cases. cbn [globals pending].
    assert (H0 : forall x, (len x =? 0)%nat = false -> (0 <? len x)%nat = true).
    { intros x H. apply Nat.eqb_neq in H. apply Nat.ltb_lt. lia. }
    rewrite (H0 _ Hb), (H0 _ Ht), Hnew. cbv zeta.
    rewrite (readLoop_no_signal w (repo g) msgs _ Hmsgs). reflexivity. }
  rewrite Hrun. repeat split.
  cbn [snd]. rewrite count_app. cbn.
  apply count_none. apply Forall_forall. intros e He.
  apply in_map_iff in He. destruct He as (r & <- & _). reflexivity.
Qed.

Lemma run_waits_for_signal_witness :
  exitStatus (fst (fst (run sampleWorld triggeredReleaseFlags
                          [ReadOk "gadget v1"; ReadErr "timed out"]))) = None.
Proof.
  apply (run_waits_for_signal sampleWorld triggeredReleaseFlags
           [ReadOk "gadget v1"; ReadErr "timed out"]); try discriminate.
  - reflexivity.
  - repeat constructor.
    + apply notSignal_of_Contains. reflexivity.
    + apply notSignal_ReadErr.
Defined.

(** ** The listener, whatever is delivered *)

Lemma readLoop_consumes (w : World) (repo : string) (msgs : list ReadResult) (s : State) :
  exists consumed,
    msgs = consumed ++ pending (snd (fst (readLoop w repo msgs s)))
    /\ reads (snd (readLoop w repo msgs s)) = List.length consumed
    /\ match fst (fst (readLoop w repo msgs s)) with
       | Returned _ =>
           exists pre value,
             consumed = pre ++ [ReadOk value]
             /\ Forall (notSignal repo) pre /\ isSubstring repo value
       | Exited _ => False
       | Blocked =>
           Forall (notSignal repo) consumed
           /\ pending (snd (fst (readLoop w repo msgs s))) = []
       end.
Proof.
  revert s; induction msgs as [|r msgs IH]; intros s; simpl.
  - exists []. repeat split. constructor.
  - set (s1 := {| globals := globals s; pending := msgs |}).
    destruct (IH s1) as (consumed & Hc & Hn & Ho). clear IH.
    destruct r as [value|e].
    + destruct (strings.Contains value repo) eqn:Hv.
      * exists [ReadOk value]. simpl. repeat split.
        exists [], value. repeat split; [constructor | now apply Contains_iff].
      * destruct (readLoop w repo msgs s1) as [[o s2] t]. simpl in *.
        exists (ReadOk value :: consumed). simpl. rewrite <- Hc, Hn. repeat split.
        assert (Hns : notSignal repo (ReadOk value))
          by (apply notSignal_of_Contains; exact Hv).
        destruct o as [[]|c|]; [| exact Ho |].
        -- destruct Ho as (pre & v & -> & Hpre & Hsig).
           exists (ReadOk value :: pre), v. repeat split; [constructor | ]; assumption.
        -- destruct Ho as (Hall & Hp). split; [constructor |]; assumption.
    + destruct (readLoop w repo msgs s1) as [[o s2] t]. simpl in *.
      exists (ReadErr e :: consumed). simpl. rewrite <- Hc, Hn. repeat split.
      pose proof (notSignal_ReadErr repo e) as Hns.
      destruct o as [[]|c|]; [| exact Ho |].
      * destruct Ho as (pre & v & -> & Hpre & Hsig).
        exists (ReadErr e :: pre), v. repeat split; [constructor | ]; assumption.
      * destruct Ho as (Hall & Hp). split; [constructor |]; assumption.
Qed.

(** X7.  Whatever is delivered, the listener consumes a prefix of the
    deliveries, one read each, and leaves the package-level variables alone.
    It returns only upon a signal: if it returns without error, the last
    delivery consumed is a message containing the repository name and no
    earlier one is; if it waits forever, every delivery was consumed and none
    was a signal.  It never ends the process itself. *)
Theorem listener_consumes_up_to_signal
  (w : World) (bootstrapServers kafkaTopic repo : string) (s : State) :
  let r := subscribeToKafkaForRepoMessage w bootstrapServers kafkaTopic repo s in
  globals (snd (fst r)) = globals s
  /\ exists consumed,
       pending s = consumed ++ pending (snd (fst r))
       /\ reads (snd r) = List.length consumed
       /\ match fst (fst r) with
          | Returned None =>
              exists pre value,
                consumed = pre ++ [ReadOk value]
                /\ Forall (notSignal repo) pre /\ isSubstring repo value
          | Returned (Some e) =>
              kafka_NewConsumer w bootstrapServers = Some e /\ consumed = []
          | Exited _ => False
          | Blocked => Forall (notSignal repo) consumed /\ pending (snd (fst r)) = []
          end.
Proof.
  cbv zeta. rewrite subscribe_cases.
  destruct (kafka_NewConsumer w bootstrapServers) as [e|].
  - split; [reflexivity |]. exists []. repeat split.
  - cbv zeta.
    destruct (readLoop_frame w repo (pending s) s) as (Hg & _).
    destruct (readLoop_consumes w repo (pending s) s) as (consumed & Hc & Hn & Ho).
    destruct (readLoop w repo (pending s) s) as [[[[]|c|] s1] t]; simpl in *;
      (split; [exact Hg |]); exists consumed; rewrite ?reads_app; simpl;
      repeat split; try assumption; try lia; try tauto.
Qed.

Lemma readLoop_no_cleanup (w : World) (repo : string) (msgs : list ReadResult) (s : State) :
  count isCleanup (snd (readLoop w repo msgs s)) = 0.
Proof.
  revert s; induction msgs as [|r msgs IH]; intros s; simpl.
  - reflexivity.
  - set (s1 := {| globals := globals s; pending := msgs |}).
    specialize (IH s1). destruct (readLoop w repo msgs s1) as [[o s2] t]. simpl in IH.
    destruct r as [value|e]; [destruct (strings.Contains value repo) |]; simpl;
      try reflexivity; exact IH.
Qed.

(** X8.  The consumer is unsubscribed and closed exactly when the listener
    returns without error: then these are its last two actions, in this
    order and once each.  When the consumer cannot be created, or the wait
    never ends, nothing is unsubscribed or closed. *)
Theorem listener_cleans_up_on_return
  (w : World) (bootstrapServers kafkaTopic repo : string) (s : State) :
  let r := subscribeToKafkaForRepoMessage w bootstrapServers kafkaTopic repo s in
  (fst (fst r) = Returned None ->
   count isCleanup (snd r) = 2
   /\ exists t, snd r = t ++ [KafkaUnsubscribe; KafkaClose] /\ count isCleanup t = 0)
  /\ (fst (fst r) <> Returned None -> count isCleanup (snd r) = 0).
Proof.
  cbv zeta. rewrite subscribe_cases.
  destruct (kafka_NewConsumer w bootstrapServers) as [e|].
  - split; [discriminate | reflexivity].
  - cbv zeta. pose proof (readLoop_no_cleanup w repo (pending s) s) as Hn.
    destruct (readLoop w repo (pending s) s) as [[[[]|c|] s1] t]; simpl in *.
    + split; [intros _ | intros H; now elim H].
      split.
      * unfold count in *. simpl. rewrite filter_app, length_app. simpl. lia.
      * exists ([KafkaSubscribe kafkaTopic;
                 Stdout (("Subscribed to " ++ kafkaTopic ++ "and waiting for message") ++ nl)]
                  ++ t).
        split; [now rewrite <- app_assoc |].
        rewrite count_app. simpl. exact Hn.
    + split; [discriminate | intros _]. unfold count in *. simpl. exact Hn.
    + split; [discriminate | intros _]. unfold count in *. simpl. exact Hn.
Qed.

(** ** Fatal errors *)














(** ** The shape of the requests *)

Lemma local_wellFormed (w : World) (t : list Event) :
  Forall (fun e => (isStdout e || isStderr e || isUsage e || isKafka e)%bool = true) t ->
  Forall (wellFormed w) t.
Proof.
  apply Forall_impl. intros [] H; try exact I; discriminate H.
Qed.

Lemma always_bind (Q : Event -> Prop) (m k : M unit) :
  (forall s, Forall Q (snd (m s))) -> (forall s, Forall Q (snd (k s))) ->
  forall s, Forall Q (snd (bind m (fun _ => k) s)).
Proof.
  intros Hm Hk s. specialize (Hm s). unfold bind.
  destruct (m s) as [[[[]|c|] s1] t1]; try exact Hm.
  specialize (Hk s1). destruct (k s1) as [[o s2] t2]. simpl in *.
  apply Forall_app. now split.
Qed.

(** Settles [Forall (wellFormed w)] on an explicit trace. *)
Ltac shapes :=
  cbn [fst snd];
  repeat first [apply Forall_nil | apply Forall_cons];
  cbn [wellFormed]; try exact I; repeat split;
  first [reflexivity | apply prefix_iff; eexists; reflexivity].

Lemma resolveTag_wellFormed (w : World) (s : State) :
  Forall (wellFormed w) (snd (resolveTag w s)).
Proof.
  unfold resolveTag, getNpmPackageName, getLatestVersion. split_cases; shapes.
Qed.

Lemma resolvePR_wellFormed (w : World) (s : State) :
  Forall (wellFormed w) (snd (resolvePR w s)).
Proof.
  unfold resolvePR, getPullRequestNumber. split_cases; shapes.
Qed.

Lemma releaseStage_wellFormed (w : World) (s : State) :
  Forall (wellFormed w) (snd (releaseStage w s)).
Proof.
  rewrite releaseStage_cases.
  destruct (0 <? pr (globals s))%Z; [| shapes].
  cbv zeta. destruct (graphql_Run w _); [shapes |].
  destruct (String.eqb (tag (globals s)) EmptyString); [shapes |].
  destruct (dryRun _); [shapes |].
  destruct (json_Marshal_Release w _); [shapes |].
  destruct (http_NewRequest w _ _); [shapes |].
  destruct (http_Do w _); shapes.
Qed.

(** X10.  Every request of a run has the shape its receiver expects: the
    requests to the hosting service (GraphQL queries, the pull-request lookup
    and the release) carry [Authorization: bearer <TOKEN>] and, for the REST
    ones, go to [https://api.github.com/repos/...]; the registry lookup is a
    [GET] with no header at all, so the token is never sent to the registry. *)
Theorem requests_are_well_formed (w : World) (g : Globals) (msgs : list ReadResult) :
  Forall (wellFormed w) (snd (run w g msgs)).
Proof.
  unfold run, main.
  apply always_bind; [intros s; apply local_wellFormed, checkFlags_local | intros s1].
  apply always_bind; [intros s; apply local_wellFormed, triggerStage_local | intros s2].
  apply always_bind; [apply resolveTag_wellFormed | intros s3].
  apply always_bind; [apply resolvePR_wellFormed | apply releaseStage_wellFormed].
Qed.

(** ** What is printed and what is sent *)





Lemma releaseStage_published_one (w : World) (s : State) :
  published (snd (releaseStage w s)) = []
  \/ exists release, published (snd (releaseStage w s)) = [release].
Proof.
  rewrite releaseStage_cases.
  destruct (0 <? pr (globals s))%Z; [| now left].
  cbv zeta. destruct (graphql_Run w _); [now left |].
  destruct (String.eqb (tag (globals s)) EmptyString); [now left |].
  destruct (dryRun _); [now left |].
  destruct (json_Marshal_Release w _); [now left |].
  destruct (http_NewRequest w _ _); [now left |].
  destruct (http_Do w _); right; eexists; reflexivity.
Qed.

(** X12.  A release is sent only after the detail query was answered, and it
    is the only release of the run.  Its name is its tag name, and its body
    is the changelog of exactly the commits in the answer: empty when the
    pull request has no commits. *)
Theorem release_carries_changelog
  (w : World) (g : Globals) (msgs : list ReadResult) (release : Release.t) :
  In release (published (snd (run w g msgs))) ->
  published (snd (run w g msgs)) = [release]
  /\ Release.Name release = Release.TagName release
  /\ exists respData,
       graphql_Run w (pullRequestRequest (env_TOKEN w) (owner g) (repo g)
                        (pr (globals (snd (fst (run w g msgs)))))) = inr respData
       /\ Release.Body release
          = buildChangelog (commitsOf (QueryResponse.Repository respData))
       /\ (commitsOf (QueryResponse.Repository respData) = [] ->
           Release.Body release = EmptyString).
Proof.
  intros Hin. split.
  - revert Hin. rewrite run_cases.
    destruct (prelude_quiet w {| globals := g; pending := msgs |}) as (Hp & _).
    destruct (prelude w {| globals := g; pending := msgs |}) as [[[[]|c|] s1] t1];
      simpl in Hp |- *; try (rewrite Hp; intros []).
    pose proof (releaseStage_published_one w s1) as H1.
    destruct (releaseStage w s1) as [[o s2] t2]. simpl in *.
    rewrite published_app, Hp. simpl.
    destruct H1 as [-> | (r & ->)]; [intros [] |].
    intros [<- | []]. reflexivity.
  - apply run_published in Hin.
    destruct Hin as (s1 & t1 & respData & _ & Hq & _ & _ & _ & Hfinal & ->).
    split; [reflexivity |]. exists respData.
    rewrite Hfinal.
    destruct (defaultTarget_keeps (QueryResponse.Repository respData) s1)
      as (_ & _ & _ & -> & _).
    split; [exact Hq |]. split; [reflexivity |].
    simpl. intros ->. reflexivity.
Qed.

Lemma release_carries_changelog_witness :
  published (snd (run sampleWorld explicitFlags [])) = [sampleRelease].
Proof.
  apply (release_carries_changelog sampleWorld explicitFlags [] sampleRelease).
  left. reflexivity.
Defined.

(** ** The changelog as a function of the commit list *)

Lemma length_append (a b : string) :
  String.length (a ++ b) = String.length a + String.length b.
Proof. induction a as [|c a IH]; simpl; [reflexivity | now rewrite IH]. Qed.

Lemma buildChangelog_app (a b : list CommitNodes.t) :
  buildChangelog (a ++ b) = (buildChangelog a ++ buildChangelog b)%string.
Proof.
  rewrite !buildChangelog_flatten, map_app. unfold flatten.
  induction (map changelogLine a) as [|x l IH]; simpl; [reflexivity |].
  now rewrite IH, append_assoc.
Qed.

Lemma length_changelogLine (node : CommitNodes.t) :
  String.length (changelogLine node)
  = 5 + len (Commit.MessageHeadline (CommitNodes.Commit node))
      + len (User.Login (Author.User (Commit.Author (CommitNodes.Commit node)))).
Proof.
  unfold changelogLine, len.
  repeat (rewrite ?length_append; cbn [String.append String.length nl]). lia.
Qed.

(** X13.  The changelog of a concatenation of commit lists is the
    concatenation of their changelogs; its length is the sum, over the
    commits, of 5 plus the lengths of headline and login; and it is empty for
    the empty commit list only. *)
Theorem buildChangelog_composes :
  (forall a b, buildChangelog (a ++ b) = (buildChangelog a ++ buildChangelog b)%string)
  /\ (forall nodes,
        String.length (buildChangelog nodes)
        = list_sum
            (map (fun node =>
                    5 + len (Commit.MessageHeadline (CommitNodes.Commit node))
                      + len (User.Login (Author.User (Commit.Author
                                                        (CommitNodes.Commit node)))))
               nodes))
  /\ (forall nodes, buildChangelog nodes = EmptyString <-> nodes = []).
Proof.
  assert (Hlen : forall nodes,
             String.length (buildChangelog nodes)
             = list_sum
                 (map (fun node =>
                         5 + len (Commit.MessageHeadline (CommitNodes.Commit node))
                           + len (User.Login (Author.User (Commit.Author
                                                             (CommitNodes.Commit node)))))
                    nodes)).
  { induction nodes as [|n nodes IH]; [reflexivity |].
    rewrite buildChangelog_cons, length_append, IH, length_changelogLine.
    cbn [map list_sum]. reflexivity. }
  split; [exact buildChangelog_app |]. split; [exact Hlen |].
  intros nodes. split; [| intros ->; reflexivity].
  intros H. destruct nodes as [|n nodes]; [reflexivity |].
  pose proof (Hlen (n :: nodes)) as Hl. rewrite H in Hl. simpl in Hl. lia.
Qed.

(** ** The four lookups, whatever the answers *)

Lemma getLatestVersion_cases (w : World) (registry name : string) (s : State) :
  getLatestVersion w registry name s
  = match http_NewRequest w "GET" (registryURL registry name) with
    | Some e => (Exited 1%Z, s, [Stderr e])
    | None =>
        (Returned
           match http_Do w (registryRequest registry name) with
           | inl e => (EmptyString, Some e)
           | inr resp =>
               match Response.Body resp with
               | inl e => (EmptyString, Some e)
               | inr body =>
                   match json_Unmarshal_RegistryResponse w body with
                   | inl e => (EmptyString, Some e)
                   | inr registryResponse =>
                       (DistTags.Latest (RegistryResponse.DistTags registryResponse), None)
                   end
               end
           end,
         s, [RegistryGet (registryRequest registry name)])
    end.
Proof.
  unfold getLatestVersion. split_cases; reflexivity.
Qed.

(** X14.  [getLatestVersion] leaves the variables alone and never blocks.  It
    returns a version without error exactly when the registry answered with a
    document that decodes, and then the version is its [dist-tags.latest]; on
    a failed connection, an unreadable body or an undecodable document it
    returns the empty string with the error, after its one request; and when
    the request cannot be constructed it ends the process with status 1
    before anything is sent. *)
Theorem getLatestVersion_outcomes (w : World) (registry name : string) (s : State) :
  snd (fst (getLatestVersion w registry name s)) = s
  /\ (forall version,
        fst (fst (getLatestVersion w registry name s)) = Returned (version, None)
        <-> registryLatest w registry name version)
  /\ (forall version e,
        fst (fst (getLatestVersion w registry name s)) = Returned (version, Some e) ->
        version = EmptyString
        /\ snd (getLatestVersion w registry name s)
           = [RegistryGet (registryRequest registry name)])
  /\ (forall c,
        fst (fst (getLatestVersion w registry name s)) = Exited c ->
        c = 1%Z
        /\ exists e,
             http_NewRequest w "GET" (registryURL registry name) = Some e
             /\ snd (getLatestVersion w registry name s) = [Stderr e])
  /\ fst (fst (getLatestVersion w registry name s)) <> Blocked.
Proof.
  rewrite getLatestVersion_cases. unfold registryLatest.
  destruct (http_NewRequest w "GET" (registryURL registry name)) as [e0|] eqn:Hn;
    cbn [fst snd].
  { split; [reflexivity |]. split; [| split; [| split]]; try discriminate.
    - intros version. split; [discriminate |].
      intros (resp & body & rr & Hx & _). discriminate.
    - intros c H. inversion H. split; [reflexivity |]. now exists e0. }
  split; [reflexivity |]. split; [| split; [| split]]; try discriminate.
  - intros version. split.
    + intros H. inversion H as [Hv]. clear H.
      destruct (http_Do w (registryRequest registry name)) as [e1|resp]; [discriminate |].
      destruct (Response.Body resp) as [e2|body] eqn:Hb; [discriminate |].
      destruct (json_Unmarshal_RegistryResponse w body) as [e3|rr] eqn:Hj; [discriminate |].
      inversion Hv. now exists resp, body, rr.
    + intros (resp & body & rr & _ & Hd & Hb & Hj & <-). now rewrite Hd, Hb, Hj.
  - intros version e H. inversion H as [Hv]. clear H. split; [| reflexivity].
    destruct (http_Do w (registryRequest registry name)) as [e1|resp]; [congruence |].
    destruct (Response.Body resp) as [e2|body]; [congruence |].
    destruct (json_Unmarshal_RegistryResponse w body) as [e3|rr]; congruence.
Qed.

Lemma getPullRequestNumber_cases
  (w : World) (githubToken owner repo commmit : string) (s : State) :
  getPullRequestNumber w githubToken owner repo commmit s
  = match http_NewRequest w "GET" (commitPullsURL owner repo (commit (globals s))) with
    | Some e => (Exited 1%Z, s, [Stderr e])
    | None =>
        let req := commitPullsRequest githubToken owner repo (commit (globals s)) in
        (Returned
           match http_Do w req with
           | inl e => (0%Z, Some e)
           | inr resp =>
               match Response.Body resp with
               | inl e => (0%Z, Some e)
               | inr body =>
                   match json_Unmarshal_PRs w body with
                   | inl e => (0%Z, Some e)
                   | inr PRs => (firstPRNumber PRs, None)
                   end
               end
           end,
         s, [CommitPullsGet req])
    end.
Proof.
  unfold getPullRequestNumber. split_cases; destruct s; reflexivity.
Qed.

(** X15.  [getPullRequestNumber] leaves the variables alone and never blocks.
    Whenever it returns an error (failed connection, unreadable body,
    undecodable answer) the number returned with it is 0 and its one request
    was sent; without error the number is that of the decoded list; and when
    the request cannot be constructed it ends the process with status 1 before
    anything is sent. *)
Theorem getPullRequestNumber_outcomes
  (w : World) (githubToken owner repo commmit : string) (s : State) :
  let r := getPullRequestNumber w githubToken owner repo commmit s in
  let req := commitPullsRequest githubToken owner repo (commit (globals s)) in
  snd (fst r) = s
  /\ (forall n e,
        fst (fst r) = Returned (n, Some e) -> n = 0%Z /\ snd r = [CommitPullsGet req])
  /\ (forall n,
        fst (fst r) = Returned (n, None) ->
        snd r = [CommitPullsGet req]
        /\ exists resp body PRs,
             http_Do w req = inr resp /\ Response.Body resp = inr body
             /\ json_Unmarshal_PRs w body = inr PRs /\ n = firstPRNumber PRs)
  /\ (forall c,
        fst (fst r) = Exited c ->
        c = 1%Z
        /\ exists e,
             http_NewRequest w "GET" (commitPullsURL owner repo (commit (globals s))) = Some e
             /\ snd r = [Stderr e])
  /\ fst (fst r) <> Blocked.
Proof.
  cbv zeta. rewrite getPullRequestNumber_cases.
  destruct (http_NewRequest w "GET" _) as [e0|] eqn:Hn; cbv zeta; cbn [fst snd].
  { split; [reflexivity |]. split; [| split; [| split]]; try discriminate.
    intros c H. inversion H. split; [reflexivity |]. now exists e0. }
  split; [reflexivity |]. split; [| split; [| split]]; try discriminate.
  - intros n e H. inversion H as [Hv]. clear H. split; [| reflexivity].
    destruct (http_Do w _) as [e1|resp]; [congruence |].
    destruct (Response.Body resp) as [e2|body]; [congruence |].
    destruct (json_Unmarshal_PRs w body) as [e3|PRs]; congruence.
  - intros n H. inversion H as [Hv]. clear H. split; [reflexivity |].
    destruct (http_Do w _) as [e1|resp]; [discriminate |].
    destruct (Response.Body resp) as [e2|body] eqn:Hb; [discriminate |].
    destruct (json_Unmarshal_PRs w body) as [e3|PRs] eqn:Hj; [discriminate |].
    inversion Hv. now exists resp, body, PRs.
Qed.

(** X16.  [getNpmPackageName] always returns, after exactly one GraphQL query
    and leaving the variables alone.  It returns a name without error exactly
    when the query was answered and the [package.json] text decodes, and then
    the name is the document's [name]; otherwise it returns the empty string
    with the error. *)
Theorem getNpmPackageName_outcomes
  (w : World) (githubToken owner repo : string) (s : State) :
  exists result,
    getNpmPackageName w githubToken owner repo s
    = (Returned result, s, [GraphQLRun (packageJsonRequest githubToken owner repo)])
    /\ (forall name, result = (name, None) <-> packageNamed w githubToken owner repo name)
    /\ (forall name e, result = (name, Some e) -> name = EmptyString).
Proof.
  unfold packageNamed, getNpmPackageName. run_monad.
  destruct (graphql_Run w _) as [e|respData] eqn:Hg; run_monad.
  { eexists. split; [reflexivity |]. split.
    - intros name. split; [discriminate |]. intros (r & pj & Hx & _). discriminate.
    - intros name e' H. now inversion H. }
  destruct (json_Unmarshal_PackageJson w _) as [e|pj] eqn:Hj; run_monad.
  { eexists. split; [reflexivity |]. split.
    - intros name. split; [discriminate |]. intros (r & pj & Hx & Hy & _). congruence.
    - intros name e' H. now inversion H. }
  eexists. split; [reflexivity |]. split.
  - intros name. split.
    + intros H. inversion H. now exists respData, pj.
    + intros (r & pj' & Hx & Hy & <-). congruence.
  - discriminate.
Qed.

(** ** The required flags *)

(** X17.  The three required flags are checked first, in the order [repo],
    [owner], [registry]: the first one that is empty makes the process print
    the usage, log that flag's message and end with status 1, before the
    trigger listener is started and before any request is sent. *)
Theorem missing_required_flag_is_fatal
  (w : World) (g : Globals) (msgs : list ReadResult) :
  (repo g = EmptyString ->
   run w g msgs
   = (Exited 1%Z, {| globals := g; pending := msgs |},
      [Usage; Stderr "repo is a required parameter"]))
  /\ (repo g <> EmptyString -> owner g = EmptyString ->
      run w g msgs
      = (Exited 1%Z, {| globals := g; pending := msgs |},
         [Usage; Stderr "owner is a required parameter"]))
  /\ (repo g <> EmptyString -> owner g <> EmptyString -> registry g = EmptyString ->
      run w g msgs
      = (Exited 1%Z, {| globals := g; pending := msgs |},
         [Usage; Stderr "registry is a required parameter"])).
Proof.
  unfold run, main, bind. rewrite checkFlags_cases. cbn [globals].
  split; [| split].
  - intros ->. reflexivity.
  - intros Hr ->. apply len_nonzero in Hr. rewrite Hr. reflexivity.
  - intros Hr Ho ->. apply len_nonzero in Hr, Ho. rewrite Hr, Ho. reflexivity.
Qed.

Lemma missing_required_flag_is_fatal_witness :
  run sampleWorld (set_tag "v2.3.0" {| owner := EmptyString; repo := "widget";
                                       registry := "https://registry.example";
                                       tag := EmptyString; targetCommitish := EmptyString;
                                       pr := 42%Z; commit := "master"; dryRun := false;
                                       kafkaTopic := "releases" |})
    [ReadOk "widget v2"]
  = (Exited 1%Z,
     {| globals := set_tag "v2.3.0" {| owner := EmptyString; repo := "widget";
                                       registry := "https://registry.example";
                                       tag := EmptyString; targetCommitish := EmptyString;
                                       pr := 42%Z; commit := "master"; dryRun := false;
                                       kafkaTopic := "releases" |};
        pending := [ReadOk "widget v2"] |},
     [Usage; Stderr "owner is a required parameter"]).
Proof.
  apply (proj1 (proj2 (missing_required_flag_is_fatal sampleWorld _ [ReadOk "widget v2"]))).
  - discriminate.
  - reflexivity.
Defined.

(** ** Exists *)

(** X18.  [Exists] reports a file as missing only when [os.Stat] fails with
    an error that [os.IsNotExist] recognises; when [os.Stat] fails in any
    other way (a permission error, say) the file is reported as existing,
    just as when [os.Stat] succeeds. *)
Theorem Exists_false_iff
  (os_Stat : string -> option error) (os_IsNotExist : error -> bool) (name : string) :
  (Exists os_Stat os_IsNotExist name = false
   <-> exists err, os_Stat name = Some err /\ os_IsNotExist err = true)
  /\ (forall err,
        os_Stat name = Some err -> os_IsNotExist err = false ->
        Exists os_Stat os_IsNotExist name = true)
  /\ (os_Stat name = None -> Exists os_Stat os_IsNotExist name = true).
Proof.
  unfold Exists. destruct (os_Stat name) as [err|] eqn:Hs.
  - destruct (os_IsNotExist err) eqn:Hn; repeat split; try discriminate; try congruence.
    + intros _. now exists err.
    + intros (err' & H1 & H2). congruence.
  - repeat split; try discriminate. intros (err & H & _). discriminate.
Qed.

Lemma Exists_false_iff_witness :
  Exists (fun name => if String.eqb name "go.sum" then Some "permission denied" else None)
    (fun err => String.eqb err "no such file or directory") "go.sum" = true.
Proof.
  apply (proj1 (proj2 (Exists_false_iff
                         (fun name => if String.eqb name "go.sum"
                                      then Some "permission denied" else None)
                         (fun err => String.eqb err "no such file or directory")
                         "go.sum")) "permission denied"); reflexivity.
Defined.

(** ** The order of the pipeline *)

Lemma ranks_app (t1 t2 : list Event) : ranks (t1 ++ t2) = ranks t1 ++ ranks t2.
Proof.
  induction t1 as [|e t1 IH]; simpl; [reflexivity |].
  destruct (rank e); simpl; now rewrite IH.
Qed.

Lemma StronglySorted_app (l1 l2 : list nat) (k : nat) :
  StronglySorted le l1 -> StronglySorted le l2 ->
  Forall (fun r => r <= k) l1 -> Forall (fun r => k <= r) l2 ->
  StronglySorted le (l1 ++ l2).
Proof.
  intros H1 H2 Hlo Hhi. induction H1 as [|a l1 Hs IH Ha]; simpl; [exact H2 |].
  inversion Hlo as [|? ? Hak Hl1]; subst.
  constructor; [now apply IH |].
  apply Forall_app. split; [exact Ha |].
  revert Hhi. apply Forall_impl. intros r Hr. lia.
Qed.

Lemma inBand_bind (lo1 hi1 lo2 hi2 : nat) (m k : M unit) :
  lo1 <= lo2 -> hi1 <= lo2 -> hi1 <= hi2 ->
  inBand lo1 hi1 m -> inBand lo2 hi2 k -> inBand lo1 hi2 (m ;; k).
Proof.
  intros Hlo Hmid Hhi Hm Hk s. destruct (Hm s) as (Hs1 & Hb1). unfold bind.
  destruct (m s) as [[[[]|c|] s1] t1]; simpl in *;
    try (split; [exact Hs1 | revert Hb1; apply Forall_impl; intros r Hr; lia]).
  destruct (Hk s1) as (Hs2 & Hb2). destruct (k s1) as [[o s2] t2]. simpl in *.
  rewrite ranks_app. split.
  - apply (StronglySorted_app _ _ hi1); auto.
    + revert Hb1. apply Forall_impl. intros r Hr. lia.
    + revert Hb2. apply Forall_impl. intros r Hr. lia.
  - apply Forall_app. split.
    + revert Hb1. apply Forall_impl. intros r Hr. lia.
    + revert Hb2. apply Forall_impl. intros r Hr. lia.
Qed.

Lemma readLoop_ranks (w : World) (repo : string) (msgs : list ReadResult) (s : State) :
  Forall (fun r => r = 0) (ranks (snd (readLoop w repo msgs s))).
Proof.
  revert s; induction msgs as [|r msgs IH]; intros s; simpl.
  - constructor.
  - set (s1 := {| globals := globals s; pending := msgs |}).
    specialize (IH s1). destruct (readLoop w repo msgs s1) as [[o s2] t]. simpl in IH.
    destruct r as [value|e]; [destruct (strings.Contains value repo) |]; simpl;
      repeat constructor; assumption.
Qed.

Lemma zeros_inBand (l : list nat) :
  Forall (fun r => r = 0) l ->
  StronglySorted le l /\ Forall (fun r => 0 <= r <= 0) l.
Proof.
  induction 1 as [|a l Ha Hl [IH1 IH2]]; [split; constructor |].
  subst a. split; constructor; auto; try lia.
  revert Hl. apply Forall_impl. intros r ->. lia.
Qed.

(** Settles sortedness and bounds of the ranks of an explicit trace. *)
Ltac band :=
  cbn [fst snd ranks rank GraphQLRequest.Query packageJsonRequest pullRequestRequest];
  rewrite ?String.eqb_refl, ?queries_differ';
  cbn [fst snd ranks rank];
  split; repeat constructor; lia.

Lemma checkFlags_inBand : inBand 0 0 checkFlags.
Proof.
  intros s. rewrite checkFlags_cases.
  destruct (len (repo (globals s)) =? 0)%nat; [band |].
  destruct (len (owner (globals s)) =? 0)%nat; [band |].
  destruct (len (registry (globals s)) =? 0)%nat; band.
Qed.

Lemma triggerStage_inBand (w : World) : inBand 0 0 (triggerStage w).
Proof.
  intros s. apply zeros_inBand. rewrite triggerStage_cases.
  destruct (_ && _)%bool; [| constructor].
  destruct (kafka_NewConsumer w (env_KAFKA_BOOTSTRAP_SERVERS w)); [constructor |].
  pose proof (readLoop_ranks w (repo (globals s)) (pending s) s) as H.
  destruct (readLoop w (repo (globals s)) (pending s) s) as [[[[]|c|] s1] t];
    cbv zeta; simpl in H |- *; repeat constructor;
    rewrite ?ranks_app; simpl; rewrite ?Forall_app; repeat constructor; assumption.
Qed.

Lemma resolveTag_inBand (w : World) : inBand 1 2 (resolveTag w).
Proof.
  intros s. unfold resolveTag, getNpmPackageName, getLatestVersion. split_cases; band.
Qed.

Lemma resolvePR_inBand (w : World) : inBand 3 3 (resolvePR w).
Proof.
  intros s. unfold resolvePR, getPullRequestNumber. split_cases; band.
Qed.

Lemma releaseStage_inBand (w : World) : inBand 4 5 (releaseStage w).
Proof.
  intros s. rewrite releaseStage_cases.
  destruct (0 <? pr (globals s))%Z; [| band].
  cbv zeta. destruct (graphql_Run w _); [band |].
  destruct (String.eqb (tag (globals s)) EmptyString); [band |].
  destruct (dryRun _); [band |].
  destruct (json_Marshal_Release w _); [band |].
  destruct (http_NewRequest w _ _); [band |].
  destruct (http_Do w _); band.
Qed.

(** X19.  The events of a run come in pipeline order: all Kafka traffic
    first, then the [package.json] query, the registry lookup, the
    pull-request lookup, the detail query, and the release last.  So no
    request is sent while the listener still waits, the pull request is never
    looked up before the tag is resolved, and nothing is fetched after the
    release was sent. *)
Theorem run_follows_pipeline_order (w : World) (g : Globals) (msgs : list ReadResult) :
  StronglySorted le (ranks (snd (run w g msgs)))
  /\ Forall (fun r => r <= 5) (ranks (snd (run w g msgs))).
Proof.
  assert (H : inBand 0 5 (main w)).
  { unfold main.
    apply (inBand_bind 0 0 0 5); try lia; [apply checkFlags_inBand |].
    apply (inBand_bind 0 0 1 5); try lia; [apply triggerStage_inBand |].
    apply (inBand_bind 1 2 3 5); try lia; [apply resolveTag_inBand |].
    apply (inBand_bind 3 3 4 5); try lia; [apply resolvePR_inBand |].
    apply releaseStage_inBand. }
  destruct (H {| globals := g; pending := msgs |}) as (Hs & Hb).
  split; [exact Hs |]. revert Hb. apply Forall_impl. intros r Hr. lia.
Qed.

(** ** The tag when resolution completes *)

(** X20.  When resolution completes, the tag is never empty: it is the given
    one, or starts with ["v"].  So the guard of line 221 cannot fire in a run:
    after resolution the release record is always built, whatever the fetched
    pull request. *)
Theorem tag_is_set_after_resolution
  (w : World) (g : Globals) (msgs : list ReadResult) (s1 : State) (t1 : list Event) :
  prelude w {| globals := g; pending := msgs |} = (Returned tt, s1, t1) ->
  tag (globals s1) <> EmptyString
  /\ (tag g <> EmptyString -> tag (globals s1) = tag g)
  /\ (tag g = EmptyString -> exists version, tag (globals s1) = String "v" version)
  /\ (forall repository,
        constructRelease repository s1
        = (Returned (releaseOf (globals (defaultTarget repository s1))
                       (buildChangelog (commitsOf repository)),
                     buildChangelog (commitsOf repository)),
           defaultTarget repository s1, [])).
Proof.
  intros Hpre. apply prelude_Returned in Hpre. destruct Hpre as (_ & Hkeep & Hnew).
  simpl in Hkeep, Hnew.
  assert (Hne : tag (globals s1) <> EmptyString).
  { destruct (string_dec (tag g) EmptyString) as [He|Hn].
    - destruct (Hnew He) as (name & version & _ & _ & ->). discriminate.
    - now rewrite (Hkeep Hn). }
  split; [exact Hne |]. split; [exact Hkeep |]. split.
  - intros He. destruct (Hnew He) as (name & version & _ & _ & ->). now exists version.
  - intros repository. rewrite constructRelease_cases.
    apply String.eqb_neq in Hne. now rewrite Hne.
Qed.

Lemma tag_is_set_after_resolution_witness :
  tag (globals {| globals := set_pr 42 (set_tag "v2.3.0" sampleFlags); pending := [] |})
  <> EmptyString.
Proof.
  apply (tag_is_set_after_resolution sampleWorld sampleFlags []
           {| globals := set_pr 42 (set_tag "v2.3.0" sampleFlags); pending := [] |}
           [GraphQLRun (packageJsonRequest "token" "acme" "widget");
            RegistryGet (registryRequest "https://registry.example" "widget");
            CommitPullsGet (commitPullsRequest "token" "acme" "widget" "master")]).
  reflexivity.
Defined.

(** ** The trigger only delays *)

Lemma untriggered_bind (m k : M unit) : untriggered m -> untriggered k -> untriggered (m ;; k).
Proof.
  intros Hm Hk topic msgs s. unfold bind. rewrite Hm.
  destruct (m s) as [[[[]|c|] s1] t1]; simpl; try reflexivity.
  rewrite Hk. destruct (k s1) as [[o s2] t2]; reflexivity.
Qed.

Lemma resolveTag_untriggered (w : World) : untriggered (resolveTag w).
Proof.
  intros topic msgs [[] msgs0].
  unfold resolveTag, getNpmPackageName, getLatestVersion, retuned, set_kafkaTopic.
  split_cases; reflexivity.
Qed.

Lemma resolvePR_untriggered (w : World) : untriggered (resolvePR w).
Proof.
  intros topic msgs [[] msgs0].
  unfold resolvePR, getPullRequestNumber, retuned, set_kafkaTopic.
  split_cases; reflexivity.
Qed.

Lemma defaultTarget_retuned (repository : Repository.t) (topic : string)
  (msgs : list ReadResult) (s : State) :
  defaultTarget repository (retuned topic msgs s)
  = retuned topic msgs (defaultTarget repository s).
Proof.
  unfold defaultTarget. simpl.
  destruct (String.eqb (targetCommitish (globals s)) EmptyString); reflexivity.
Qed.

Lemma releaseStage_untriggered (w : World) : untriggered (releaseStage w).
Proof.
  intros topic msgs s. rewrite !releaseStage_cases.
  cbn [retuned globals set_kafkaTopic pr owner repo tag].
  destruct (0 <? pr (globals s))%Z; [| reflexivity].
  cbv zeta. destruct (graphql_Run w _) as [e|respData]; [reflexivity |].
  destruct (String.eqb (tag (globals s)) EmptyString); [reflexivity |].
  change {| globals := set_kafkaTopic topic (globals s); pending := msgs |}
    with (retuned topic msgs s).
  rewrite defaultTarget_retuned.
  set (s1 := defaultTarget (QueryResponse.Repository respData) s).
  cbn [retuned globals set_kafkaTopic dryRun owner repo].
  change (releaseOf (set_kafkaTopic topic (globals s1))) with (releaseOf (globals s1)).
  change (reportLine (set_kafkaTopic topic (globals s1))) with (reportLine (globals s1)).
  destruct (dryRun (globals s1)); [reflexivity |].
  destruct (json_Marshal_Release w _); [reflexivity |].
  destruct (http_NewRequest w _ _); [reflexivity |].
  destruct (http_Do w _); reflexivity.
Qed.

Lemma afterTrigger_untriggered (w : World) : untriggered (afterTrigger w).
Proof.
  unfold afterTrigger.
  auto using untriggered_bind, resolveTag_untriggered, resolvePR_untriggered,
    releaseStage_untriggered.
Qed.

Lemma main_afterTrigger (w : World) (s : State) :
  repo (globals s) <> EmptyString -> owner (globals s) <> EmptyString ->
  registry (globals s) <> EmptyString ->
  main w s = bind (triggerStage w) (fun _ => afterTrigger w) s.
Proof.
  intros Hr Ho Hg. apply len_nonzero in Hr, Ho, Hg.
  change (main w s) with (bind checkFlags (fun _ => bind (triggerStage w)
                                             (fun _ => afterTrigger w)) s).
  unfold bind at 1. rewrite checkFlags_cases, Hr, Ho, Hg.
  destruct (bind (triggerStage w) (fun _ => afterTrigger w) s) as [[o s2] t2]. reflexivity.
Qed.

(** X21.  The trigger only delays the run.  With the trigger configured, once
    the first message naming the repository has arrived the run goes on
    exactly as a run without trigger would: it ends the same way, and its
    events are those of the listener (subscribe, the reads up to the signal,
    the two lines printed, unsubscribe and close) followed by those of the
    run without trigger.  What was delivered, and what is delivered after the
    signal, changes nothing in the release. *)
Theorem trigger_only_delays
  (w : World) (g : Globals) (pre : list ReadResult) (value : string)
  (rest : list ReadResult) :
  repo g <> EmptyString -> owner g <> EmptyString -> registry g <> EmptyString ->
  env_KAFKA_BOOTSTRAP_SERVERS w <> EmptyString -> kafkaTopic g <> EmptyString ->
  kafka_NewConsumer w (env_KAFKA_BOOTSTRAP_SERVERS w) = None ->
  Forall (notSignal (repo g)) pre ->
  isSubstring (repo g) value ->
  run w g (pre ++ ReadOk value :: rest)
  = (fst (fst (run w (set_kafkaTopic EmptyString g) [])),
     retuned (kafkaTopic g) rest (snd (fst (run w (set_kafkaTopic EmptyString g) []))),
     listenerTrace w (kafkaTopic g) (repo g) pre value
       ++ snd (run w (set_kafkaTopic EmptyString g) [])).
Proof.
  intros Hr Ho Hg Hb Ht Hnew Hpre Hsig.
  unfold run. rewrite !main_afterTrigger by assumption.
  unfold bind.
  rewrite (triggerStage_skipped w {| globals := set_kafkaTopic EmptyString g; pending := [] |})
    by (right; reflexivity).
  rewrite triggerStage_cases. cbn [globals pending].
  apply len_nonzero in Hb, Ht.
  assert (H0 : forall x, (len x =? 0)%nat = false -> (0 <? len x)%nat = true).
  { intros x H. apply Nat.eqb_neq in H. apply Nat.ltb_lt. lia. }
  rewrite (H0 _ Hb), (H0 _ Ht), Hnew. cbv zeta.
  rewrite (readLoop_first_signal w (repo g) pre value rest _ Hpre Hsig).
  cbn [andb globals].
  assert (Hs : {| globals := g; pending := rest |}
               = retuned (kafkaTopic g) rest
                   {| globals := set_kafkaTopic EmptyString g; pending := [] |}).
  { unfold retuned. destruct g; reflexivity. }
  rewrite Hs, afterTrigger_untriggered.
  destruct (afterTrigger w {| globals := set_kafkaTopic EmptyString g; pending := [] |})
    as [[o s2] t2].
  cbn [fst snd app]. unfold listenerTrace.
  rewrite <- !app_assoc. reflexivity.
Qed.

Lemma trigger_only_delays_witness :
  run sampleWorld triggeredReleaseFlags
    ([ReadOk "gadget v1"; ReadErr "timed out"] ++ ReadOk "widget v2" :: [ReadOk "late"])
  = (fst (fst (run sampleWorld (set_kafkaTopic EmptyString triggeredReleaseFlags) [])),
     retuned (kafkaTopic triggeredReleaseFlags) [ReadOk "late"]
       (snd (fst (run sampleWorld (set_kafkaTopic EmptyString triggeredReleaseFlags) []))),
     listenerTrace sampleWorld (kafkaTopic triggeredReleaseFlags)
       (repo triggeredReleaseFlags) [ReadOk "gadget v1"; ReadErr "timed out"] "widget v2"
       ++ snd (run sampleWorld (set_kafkaTopic EmptyString triggeredReleaseFlags) [])).
Proof.
  apply (trigger_only_delays sampleWorld triggeredReleaseFlags
           [ReadOk "gadget v1"; ReadErr "timed out"] "widget v2" [ReadOk "late"]);
    try discriminate.
  - reflexivity.
  - repeat constructor.
    + apply notSignal_of_Contains. reflexivity.
    + apply notSignal_ReadErr.
  - apply Contains_iff. reflexivity.
Defined.
